(** * Image optimization pipeline of evilpo: a shallow embedding

    Sources embedded here:
    - [docs/js/image-optimization.js]: class [ImageOptimizationSystem]
      (capability detection, format and quality selection, dimensions,
      srcset, the optimized image, percentiles, failed images) and class
      [ImageOptimizationABTesting] (hash bucketing, persisted assignments,
      forced variants, event queue and locally stored events);
    - [src/js/performance-monitor.js]: class [ImageOptimizationSW]
      (cache partitions, eviction, expiry, format-support query, request
      optimization, fetch handlers and fallbacks, housekeeping) and class
      [PerformanceMonitor] (percentiles, summaries, image formats).

    JavaScript numbers are modelled by [number]: NaN, the two infinities and
    exact rationals.  Rounding error of binary64 arithmetic and the sign of
    zero are not modelled; every constant and every operation is otherwise
    the one the source writes.  Strings are [string] (code units below 256),
    and lists of code units where a text goes beyond Latin-1.
    Promises are modelled by their settled outcome. *)

From Stdlib Require Import ZArith QArith Qround String Ascii List Bool Lia Lqa.
From stdpp Require Import base option list sorting gmap strings pretty.

Local Open Scope string_scope.
Local Open Scope Z_scope.

(** ** JavaScript numbers *)

Module JS.

Inductive number : Type :=
| NaN : number
| Infinity (negative : bool) : number
| Fin (q : Q) : number.

Definition of_Z (z : Z) : number := Fin (inject_Z z).

(** [ToBoolean] on a number: NaN and zero are falsy. *)
Definition truthy (n : number) : bool :=
  match n with
  | NaN => false
  | Infinity _ => true
  | Fin q => negb (Qeq_bool q 0%Q)
  end.

Definition Qneg_b (q : Q) : bool := (Qnum q <? 0)%Z.

(** [a * b] *)
Definition mul (a b : number) : number :=
  match a, b with
  | NaN, _ | _, NaN => NaN
  | Infinity s, Infinity t => Infinity (xorb s t)
  | Infinity s, Fin q | Fin q, Infinity s =>
      if Qeq_bool q 0%Q then NaN else Infinity (xorb s (Qneg_b q))
  | Fin p, Fin q => Fin (p * q)%Q
  end.

(** [a + b] *)
Definition add (a b : number) : number :=
  match a, b with
  | NaN, _ | _, NaN => NaN
  | Infinity s, Infinity t => if Bool.eqb s t then Infinity s else NaN
  | Infinity s, Fin _ | Fin _, Infinity s => Infinity s
  | Fin p, Fin q => Fin (p + q)%Q
  end.

(** [a <= b]; any comparison with NaN is false. *)
Definition le (a b : number) : bool :=
  match a, b with
  | NaN, _ | _, NaN => false
  | Infinity true, _ => true
  | _, Infinity false => true
  | Infinity false, _ => false
  | _, Infinity true => false
  | Fin p, Fin q => Qle_bool p q
  end.

(** [a < b] *)
Definition lt (a b : number) : bool :=
  match a, b with
  | NaN, _ | _, NaN => false
  | Infinity s, Infinity t => s && negb t
  | Infinity s, Fin _ => s
  | Fin _, Infinity t => negb t
  | Fin p, Fin q => negb (Qle_bool q p)
  end.

(** [Math.round]: the integer nearest to the argument, ties towards
    +Infinity. *)
Definition round (a : number) : number :=
  match a with
  | Fin q => of_Z (Qfloor (q + (1 # 2))%Q)
  | _ => a
  end.

(** [Math.min(a, b)] and [Math.max(a, b)]: NaN if either argument is. *)
Definition min (a b : number) : number :=
  match a, b with
  | NaN, _ | _, NaN => NaN
  | _, _ => if le a b then a else b
  end.

Definition max (a b : number) : number :=
  match a, b with
  | NaN, _ | _, NaN => NaN
  | _, _ => if le a b then b else a
  end.

(** [x || d] on numbers that may be [undefined]. *)
Definition or_default (x : option number) (d : number) : number :=
  match x with
  | Some n => if truthy n then n else d
  | None => d
  end.

(** [s || d] on strings that may be [undefined]: the empty string is
    falsy. *)
Definition str_or_default (x : option string) (d : string) : string :=
  match x with
  | Some "" | None => d
  | Some s => s
  end.

(** [b || d] on booleans that may be [undefined]. *)
Definition bool_or_default (x : option bool) (d : bool) : bool :=
  match x with
  | Some true => true
  | _ => d
  end.

(** An integer-valued number inside [lo, hi]. *)
Definition int_in (lo hi : Z) (n : number) : Prop :=
  exists z : Z, n = of_Z z /\ lo <= z <= hi.

End JS.

(** Decimal literals of the source. *)
Notation "'0.5'" := (JS.Fin (1 # 2)) (only parsing).
Notation "'0.6'" := (JS.Fin (6 # 10)) (only parsing).
Notation "'0.7'" := (JS.Fin (7 # 10)) (only parsing).
Notation "'0.8'" := (JS.Fin (8 # 10)) (only parsing).
Notation "'0.9'" := (JS.Fin (9 # 10)) (only parsing).
Notation "'1.1'" := (JS.Fin (11 # 10)) (only parsing).
Notation "'1.5'" := (JS.Fin (3 # 2)) (only parsing).

(** ** ImageOptimizationSystem: state *)

Record Connection : Type := mkConnection {
  effectiveType : string;
  downlink : JS.number;
  rtt : JS.number;
  saveData : bool
}.

Record FormatSupport : Type := mkFormatSupport {
  avif : bool;
  webp : bool;
  jpg : bool
}.

Record Viewport : Type := mkViewport {
  vp_width : JS.number;
  vp_height : JS.number
}.

Record DeviceCapabilities : Type := mkDeviceCapabilities {
  viewport : Viewport;
  devicePixelRatio : JS.number;
  deviceType : string;
  connection : Connection;
  memory : JS.number;
  cores : JS.number;
  reducedMotion : bool;
  darkMode : bool
}.

(** [abTestVariant] is [null] when A/B testing is disabled, otherwise an
    object from experiment name to variant name. *)
Record ImageOptimizationSystem : Type := mkSystem {
  abTestVariant : option (gmap string string);
  formatSupport : FormatSupport;
  deviceCapabilities : DeviceCapabilities
}.

(** [this.abTestVariant?.[experiment]] *)
Definition variant_of (sys : ImageOptimizationSystem) (experiment : string)
  : option string :=
  match abTestVariant sys with
  | Some variants => variants !! experiment
  | None => None
  end.

(** The variant names the two selectors switch on. *)
Definition formatVariant (sys : ImageOptimizationSystem) : string :=
  JS.str_or_default (variant_of sys "format-preference") "smart-detection".

Definition compressionVariant (sys : ImageOptimizationSystem) : string :=
  JS.str_or_default (variant_of sys "compression-strategy") "balanced".

(** ** Format and quality selection *)

Definition selectOptimalFormat (sys : ImageOptimizationSystem) : string :=
  let variant := formatVariant sys in
  if String.eqb variant "avif-first" then
    if avif (formatSupport sys) then "avif"
    else if webp (formatSupport sys) then "webp" else "jpg"
  else if String.eqb variant "webp-first" then
    if webp (formatSupport sys) then "webp" else "jpg"
  else
    (* case 'smart-detection': default: *)
    if saveData (connection (deviceCapabilities sys)) then "jpg"
    else if avif (formatSupport sys)
            && negb (String.eqb (effectiveType (connection (deviceCapabilities sys)))
                                "slow-2g")
    then "avif"
    else if webp (formatSupport sys) then "webp" else "jpg".

Definition calculateOptimalQuality (sys : ImageOptimizationSystem)
    (requestedQuality : option JS.number) : JS.number :=
  let variant := compressionVariant sys in
  let connection := connection (deviceCapabilities sys) in
  let baseQuality := JS.or_default requestedQuality (JS.of_Z 80) in
  let baseQuality :=
    if String.eqb variant "aggressive" then JS.mul baseQuality 0.8
    else if String.eqb variant "quality-focused" then JS.mul baseQuality 1.1
    else baseQuality in
  let baseQuality :=
    if saveData connection then JS.mul baseQuality 0.6
    else if String.eqb (effectiveType connection) "slow-2g" then JS.mul baseQuality 0.7
    else if String.eqb (effectiveType connection) "2g" then JS.mul baseQuality 0.8
    else if String.eqb (effectiveType connection) "3g" then JS.mul baseQuality 0.9
    else baseQuality in
  JS.max (JS.of_Z 30) (JS.min (JS.of_Z 95) (JS.round baseQuality)).

(** ** Responsive srcset

    [URLSearchParams], [encodeURIComponent] and number-to-string conversion
    are platform functions; they are parameters of the embedding. *)

Record Dimensions : Type := mkDimensions {
  dim_width : JS.number;
  dim_height : JS.number;
  originalWidth : JS.number;
  originalHeight : JS.number
}.

Record UrlOptions : Type := mkUrlOptions {
  opt_format : string;
  opt_width : JS.number;
  opt_height : JS.number;
  opt_quality : JS.number
}.

Section Srcset.

Variable encodeURIComponent : string -> string.
Variable URLSearchParams_toString : list (string * string) -> string.
Variable Number_toString : JS.number -> string.
(** [this.config.cdnConfig.imageProxy] *)
Variable imageProxy : string.

Definition generateOptimizedUrl (sys : ImageOptimizationSystem) (src : string)
    (options : UrlOptions) : string :=
  let params := URLSearchParams_toString
    [ ("url", encodeURIComponent src);
      ("w", Number_toString (opt_width options));
      ("h", Number_toString (opt_height options));
      ("q", Number_toString (opt_quality options));
      ("f", opt_format options);
      ("auto", "compress,format");
      ("fit", "crop");
      ("dpr", Number_toString
                (JS.min (devicePixelRatio (deviceCapabilities sys)) (JS.of_Z 2))) ] in
  imageProxy ++ "/optimize?" ++ params.

Definition breakpoints : list JS.number := [0.5; JS.of_Z 1; 1.5; JS.of_Z 2].

(** The [(url, scaledWidth)] pair the [map] callback of [generateSrcSet]
    computes for one multiplier. *)
Definition srcSetCandidate (sys : ImageOptimizationSystem) (src : string)
    (dimensions : Dimensions) (format : string) (quality : JS.number)
    (multiplier : JS.number) : string * JS.number :=
  let scaledWidth := JS.round (JS.mul (dim_width dimensions) multiplier) in
  let scaledHeight := JS.round (JS.mul (dim_height dimensions) multiplier) in
  let url := generateOptimizedUrl sys src
               (mkUrlOptions format scaledWidth scaledHeight quality) in
  (url, scaledWidth).

Definition srcSetCandidates (sys : ImageOptimizationSystem) (src : string)
    (dimensions : Dimensions) (format : string) (quality : JS.number)
  : list (string * JS.number) :=
  map (srcSetCandidate sys src dimensions format quality) breakpoints.

(** [Array.prototype.join] *)
Fixpoint join (sep : string) (l : list string) : string :=
  match l with
  | [] => ""
  | [x] => x
  | x :: rest => x ++ sep ++ join sep rest
  end.

Definition generateSrcSet (sys : ImageOptimizationSystem) (src : string)
    (dimensions : Dimensions) (format : string) (quality : JS.number) : string :=
  join ", "
    (map (fun c : string * JS.number => c.1 ++ " " ++ Number_toString c.2 ++ "w")
         (srcSetCandidates sys src dimensions format quality)).

End Srcset.

(** The widths listed by the srcset. *)
Definition srcSetWidths (dimensions : Dimensions) : list JS.number :=
  map (fun multiplier => JS.round (JS.mul (dim_width dimensions) multiplier))
      breakpoints.

(** ** Experiment assignment in ImageOptimizationSystem *)

Record ABExperiment : Type := mkABExperiment {
  ab_variants : list string;
  allocation : list JS.number
}.

Record ABTesting : Type := mkABTesting {
  ab_enabled : bool;
  ab_experiments : list (string * ABExperiment)
}.

(** [allocation[i]] is [undefined] out of range, and adding [undefined]
    gives NaN. *)
Definition allocation_at (config : ABExperiment) (i : nat) : JS.number :=
  default JS.NaN (allocation config !! i).

(** The [for] loop of [getABTestVariant] from index [i] on, over the
    variants not yet visited; [None] when the loop ends without [break]. *)
Fixpoint pickVariant (config : ABExperiment) (random : JS.number)
    (cumulative : JS.number) (i : nat) (rest : list string) : option string :=
  match rest with
  | [] => None
  | v :: rest' =>
      let cumulative := JS.add cumulative (allocation_at config i) in
      if JS.le random cumulative then Some v
      else pickVariant config random cumulative (S i) rest'
  end.

(** [Math.random] is the sequence of its draws: [random k] is the value of
    call number [k]. *)
Fixpoint getABTestVariant_from (experiments : list (string * ABExperiment))
    (random : nat -> JS.number) (k : nat) (variants : gmap string string)
  : gmap string string :=
  match experiments with
  | [] => variants
  | (experiment, config) :: rest =>
      let variants :=
        match pickVariant config (random k) (JS.of_Z 0) 0 (ab_variants config) with
        | Some v => <[experiment := v]> variants
        | None => variants
        end in
      getABTestVariant_from rest random (S k) variants
  end.

Definition getABTestVariant (abTesting : ABTesting) (random : nat -> JS.number)
  : option (gmap string string) :=
  if negb (ab_enabled abTesting) then None
  else Some (getABTestVariant_from (ab_experiments abTesting) random 0 ∅).

(** The experiments of the constructor's default configuration. *)
Definition default_abTesting : ABTesting :=
  mkABTesting true
    [ ("format-preference",
       mkABExperiment ["avif-first"; "webp-first"; "smart-detection"]
                      [JS.Fin (4 # 10); JS.Fin (4 # 10); JS.Fin (2 # 10)]);
      ("compression-strategy",
       mkABExperiment ["aggressive"; "balanced"; "quality-focused"]
                      [JS.Fin (3 # 10); JS.Fin (4 # 10); JS.Fin (3 # 10)]) ].

(** ** ImageOptimizationABTesting: hash bucketing and stored assignments *)

(** What [assignToVariant] returns and [userAssignments] stores. *)
Inductive assigned : Type :=
| Null : assigned
| Undefined : assigned
| VariantId (id : string) : assigned.

#[global] Instance assigned_eq_dec : EqDecision assigned.
Proof. solve_decision. Defined.

Record VariantConfig : Type := mkVariantConfig {
  weight : JS.number
}.

Record Experiment : Type := mkExperiment {
  variants : list (string * VariantConfig)
}.

(** The experiments of the constructor's default configuration, with the
    weights of their variants. *)
Definition three (a b c : string) (wa wb wc : Q) : Experiment :=
  mkExperiment [ (a, mkVariantConfig (JS.Fin wa)); (b, mkVariantConfig (JS.Fin wb));
                 (c, mkVariantConfig (JS.Fin wc)) ].

Definition default_experiments : list (string * Experiment) :=
  [ ("format-preference",
     three "avif-first" "webp-first" "smart-detection" (3 # 10) (4 # 10) (3 # 10));
    ("compression-strategy",
     three "aggressive" "balanced" "quality-focused" (3 # 10) (4 # 10) (3 # 10));
    ("lazy-loading-strategy",
     three "intersection-observer" "scroll-based" "predictive" (4 # 10) (2 # 10) (4 # 10));
    ("cache-strategy",
     three "aggressive-cache" "balanced-cache" "minimal-cache" (3 # 10) (4 # 10) (3 # 10)) ].

(** Lookup of an own property in an object given by its entries. *)
Fixpoint prop {A : Type} (entries : list (string * A)) (key : string) : option A :=
  match entries with
  | [] => None
  | (k, v) :: rest => if String.eqb k key then Some v else prop rest key
  end.

Definition to_int32 (z : Z) : Z := (z + 2 ^ 31) mod 2 ^ 32 - 2 ^ 31.

Definition charCodeAt (c : ascii) : Z := Z.of_N (N_of_ascii c).

(** One iteration of the loop of [hashString]. *)
Definition hashStep (hash : Z) (c : ascii) : Z :=
  let char := charCodeAt c in
  let hash := (to_int32 (Z.shiftl (to_int32 hash) 5) - hash) + char in
  Z.land (to_int32 hash) (to_int32 hash).

Definition hashString (str : string) : Z :=
  Z.abs (fold_left hashStep (list_ascii_of_string str) 0).

Record ImageOptimizationABTesting : Type := mkFramework {
  experiments : list (string * Experiment);
  userAssignments : gmap string assigned;
  userId : string;
  sessionId : string
}.

(** The [for ... of Object.entries(experiment.variants)] loop. *)
Fixpoint bucketVariant (random : JS.number) (cumulative : JS.number)
    (entries : list (string * VariantConfig)) : option string :=
  match entries with
  | [] => None
  | (variantId, variant) :: rest =>
      let cumulative := JS.add cumulative (weight variant) in
      if JS.le random cumulative then Some variantId
      else bucketVariant random cumulative rest
  end.

(** [(hash % 10000) / 10000] *)
Definition bucket (hash : Z) : JS.number := JS.Fin (Z.rem hash 10000 # 10000).

Definition assignToVariant (this : ImageOptimizationABTesting) (experimentId : string)
  : assigned :=
  match prop (experiments this) experimentId with
  | None => Null
  | Some experiment =>
      let hash := hashString (userId this ++ experimentId) in
      let random := bucket hash in
      match bucketVariant random (JS.of_Z 0) (variants experiment) with
      | Some variantId => VariantId variantId
      | None =>
          (* Object.keys(experiment.variants)[0] *)
          match variants experiment with
          | (variantId, _) :: _ => VariantId variantId
          | [] => Undefined
          end
      end
  end.

(** [localStorage], with the JSON text of the assignments kept in parsed
    form: a JSON object whose values are strings or [null] ([None]). *)
Record LocalStorage : Type := mkLocalStorage {
  ab_test_user_id : option string;
  ab_test_assignments : option (gmap string (option string))
}.

(** [JSON.stringify] omits the properties whose value is [undefined]. *)
Definition toJSON (a : assigned) : option (option string) :=
  match a with
  | Undefined => None
  | Null => Some None
  | VariantId id => Some (Some id)
  end.

Definition fromJSON (j : option string) : assigned :=
  match j with
  | None => Null
  | Some id => VariantId id
  end.

(** The clock and the random draw a session reads. *)
Record Env : Type := mkEnv {
  user_now : Z;
  user_random : string;
  session_now : Z;
  session_random : string
}.

(** [Math.random().toString(36).substr(2, 9)] is the string the
    environment supplies. *)
Definition generateUserId (env : Env) : string :=
  "user_" ++ pretty (user_now env) ++ "_" ++ user_random env.

Definition generateSessionId (env : Env) : string :=
  "session_" ++ pretty (session_now env) ++ "_" ++ session_random env.

Definition getUserId (env : Env) (ls : LocalStorage) : string * LocalStorage :=
  match ab_test_user_id ls with
  | Some (String c s) => (String c s, ls)
  | _ =>
      let userId := generateUserId env in
      (userId, mkLocalStorage (Some userId) (ab_test_assignments ls))
  end.

Definition loadUserAssignments (this : ImageOptimizationABTesting) (ls : LocalStorage)
  : ImageOptimizationABTesting :=
  match ab_test_assignments ls with
  | Some assignments =>
      mkFramework (experiments this)
                  ((fromJSON <$> assignments) ∪ userAssignments this)
                  (userId this) (sessionId this)
  | None => this
  end.

Definition saveUserAssignments (this : ImageOptimizationABTesting) (ls : LocalStorage)
  : LocalStorage :=
  mkLocalStorage (ab_test_user_id ls)
    (Some (omap toJSON (userAssignments this))).

(** The [forEach] of [assignUserToExperiments] over the experiment ids. *)
Fixpoint assignEach (this : ImageOptimizationABTesting) (ids : list string)
    (assignments : gmap string assigned) : gmap string assigned :=
  match ids with
  | [] => assignments
  | experimentId :: rest =>
      let assignments :=
        match assignments !! experimentId with
        | Some _ => assignments
        | None => <[experimentId := assignToVariant this experimentId]> assignments
        end in
      assignEach this rest assignments
  end.

Definition assignUserToExperiments (this : ImageOptimizationABTesting) (ls : LocalStorage)
  : ImageOptimizationABTesting * LocalStorage :=
  let this := mkFramework (experiments this)
                (assignEach this (map fst (experiments this)) (userAssignments this))
                (userId this) (sessionId this) in
  (this, saveUserAssignments this ls).

(** [new ImageOptimizationABTesting()] with [config.enabled] set: the constructor
    and the part of [init] that touches the assignments. *)
Definition newFramework (exps : list (string * Experiment)) (env : Env)
    (ls : LocalStorage) : ImageOptimizationABTesting * LocalStorage :=
  let '(userId, ls) := getUserId env ls in
  let this := mkFramework exps ∅ userId (generateSessionId env) in
  let this := loadUserAssignments this ls in
  assignUserToExperiments this ls.

(** [this.userAssignments.get(experimentId) || null] *)
Definition getVariant (this : ImageOptimizationABTesting) (experimentId : string)
  : assigned :=
  match userAssignments this !! experimentId with
  | Some (VariantId (String c s)) => VariantId (String c s)
  | _ => Null
  end.

(** ** Capability detection *)

Record NetworkInformation : Type := mkNetworkInformation {
  ni_effectiveType : option string;
  ni_downlink : option JS.number;
  ni_rtt : option JS.number;
  ni_saveData : option bool
}.

Record Navigator : Type := mkNavigator {
  nav_connection : option NetworkInformation;
  nav_mozConnection : option NetworkInformation;
  nav_webkitConnection : option NetworkInformation;
  nav_deviceMemory : option JS.number;
  nav_hardwareConcurrency : option JS.number
}.

Record Window : Type := mkWindow {
  innerWidth : JS.number;
  innerHeight : JS.number;
  win_devicePixelRatio : option JS.number;
  matchMedia : string -> bool
}.

(** [a || b] on objects that may be [undefined]. *)
Definition or_else {A : Type} (a b : option A) : option A :=
  match a with
  | Some x => Some x
  | None => b
  end.

(** [config.deviceTypes.mobile.maxWidth] and [tablet.maxWidth]. *)
Definition getDeviceType (width : JS.number) : string :=
  if JS.le width (JS.of_Z 768) then "mobile"
  else if JS.le width (JS.of_Z 1024) then "tablet"
  else "desktop".

Definition detectDeviceCapabilities (window : Window) (navigator : Navigator)
  : DeviceCapabilities :=
  let viewport := mkViewport (innerWidth window) (innerHeight window) in
  let devicePixelRatio := JS.or_default (win_devicePixelRatio window) (JS.of_Z 1) in
  let connection :=
    or_else (or_else (nav_connection navigator) (nav_mozConnection navigator))
            (nav_webkitConnection navigator) in
  mkDeviceCapabilities
    viewport
    devicePixelRatio
    (getDeviceType (vp_width viewport))
    (mkConnection
       (JS.str_or_default (connection ≫= ni_effectiveType) "4g")
       (JS.or_default (connection ≫= ni_downlink) (JS.of_Z 10))
       (JS.or_default (connection ≫= ni_rtt) (JS.of_Z 100))
       (JS.bool_or_default (connection ≫= ni_saveData) false))
    (JS.or_default (nav_deviceMemory navigator) (JS.of_Z 4))
    (JS.or_default (nav_hardwareConcurrency navigator) (JS.of_Z 4))
    (matchMedia window "(prefers-reduced-motion: reduce)")
    (matchMedia window "(prefers-color-scheme: dark)").

(** How decoding a test image ends: [onload], [onerror], or the [Image]
    constructor is missing and the promise rejects. *)
Inductive ImageOutcome : Type := Loads | Errors | Rejects.

Definition avifTestImage : string :=
  "data:image/avif;base64,AAAAIGZ0eXBhdmlmAAAAAGF2aWZtaWYxbWlhZk1BMUIAAADybWV0YQAAAAAAAAAoaGRscgAAAAAAAAAAcGljdAAAAAAAAAAAAAAAAGxpYmF2aWYAAAAADnBpdG0AAAAAAAEAAAAeaWxvYwAAAABEAAABAAEAAAABAAABGgAAAB0AAAAoaWluZgAAAAAAAQAAABppbmZlAgAAAAABAABhdjAxQ29sb3IAAAAAamlwcnAAAABLaXBjbwAAABRpc3BlAAAAAAAAAAEAAAABAAAAEHBpeGkAAAAAAwgICAAAAAxhdjFDgQ0MAAAAABNjb2xybmNseAACAAIAAYAAAAAXaXBtYQAAAAAAAAABAAEEAQKDBAAAACVtZGF0EgAKCBgABogQEAwgMg8f8D///8WfhwB8+ErK42A=".

Definition webpTestImage : string :=
  "data:image/webp;base64,UklGRjoAAABXRUJQVlA4IC4AAACyAgCdASoCAAIALmk0mk0iIiIiIgBoSygABc6WWgAA/veff/0PP8bA//LwYAAA".

(** [await this.createTestImage(dataUrl)]: [None] when the await throws. *)
Definition createTestImage (decode : string -> ImageOutcome) (dataUrl : string)
  : option bool :=
  match decode dataUrl with
  | Loads => Some true
  | Errors => Some false
  | Rejects => None
  end.

Definition detectFormatSupport (decode : string -> ImageOutcome) : FormatSupport :=
  let avif :=
    match createTestImage decode avifTestImage with
    | Some avifTest => avifTest
    | None => false
    end in
  let webp :=
    match createTestImage decode webpTestImage with
    | Some webpTest => webpTest
    | None => false
    end in
  mkFormatSupport avif webp true.

(** [PerformanceMonitor.getSupportedFormats]: the argument is
    [window.ImageOptimizer?.formatSupport]. *)
Definition getSupportedFormats (optimizerFormatSupport : option FormatSupport)
  : FormatSupport :=
  match optimizerFormatSupport with
  | Some fs => fs
  | None => mkFormatSupport false false true
  end.

(** ** Service worker: format support from the main thread *)

Record Message : Type := mkMessage {
  msg_type : string;
  msg_formatSupport : FormatSupport
}.

(** The first message the handler resolves with. *)
Fixpoint firstFormatSupportResponse (messages : list Message) : option FormatSupport :=
  match messages with
  | [] => None
  | m :: rest =>
      if String.eqb (msg_type m) "FORMAT_SUPPORT_RESPONSE"
      then Some (msg_formatSupport m)
      else firstFormatSupportResponse rest
  end.

(** [getFormatSupport]: [clients] is what [self.clients.matchAll()] gives,
    [messages] the message events that arrive afterwards.  [None]: the
    promise stays pending. *)
Definition getFormatSupport {Client : Type} (clients : list Client)
    (messages : list Message) : option FormatSupport :=
  match clients with
  | _ :: _ => firstFormatSupportResponse messages
  | [] => Some (mkFormatSupport false true true)
  end.

Definition getBestFormat {Client : Type} (clients : list Client)
    (messages : list Message) : option string :=
  formatSupport ← getFormatSupport clients messages;
  Some (if avif formatSupport then "avif"
        else if webp formatSupport then "webp"
        else "jpg").

(** ** Service worker: cache partitions *)

(** A thrown exception or a value. *)
Inductive completion (A : Type) : Type :=
| Return (a : A) : completion A
| Throw (error : string) : completion A.
Arguments Return {A} a.
Arguments Throw {A} error.

Definition cbind {A B : Type} (c : completion A) (k : A -> completion B)
  : completion B :=
  match c with
  | Return a => k a
  | Throw e => Throw e
  end.

Notation "'do' x <- c ; k" := (cbind c (fun x => k))
  (at level 10, x name, c at level 100, k at level 200).

Definition CACHE_VERSION : string := "v1.2.0".

Module CACHE_NAMES.
Definition images : string := "images-" ++ CACHE_VERSION.
Definition static : string := "static-" ++ CACHE_VERSION.
Definition dynamic : string := "dynamic-" ++ CACHE_VERSION.
Definition optimized : string := "optimized-images-" ++ CACHE_VERSION.
End CACHE_NAMES.

Definition MAX_CACHE_SIZE : list (string * Z) :=
  [ ("images", 50 * 1024 * 1024);
    ("optimized", 100 * 1024 * 1024);
    ("static", 10 * 1024 * 1024);
    ("dynamic", 25 * 1024 * 1024) ].

Module CACHE_EXPIRY.
Definition images : Z := 7 * 24 * 60 * 60 * 1000.
Definition optimized : Z := 30 * 24 * 60 * 60 * 1000.
Definition static : Z := 24 * 60 * 60 * 1000.
Definition dynamic : Z := 2 * 60 * 60 * 1000.
End CACHE_EXPIRY.

Definition IMAGE_FORMATS : list string :=
  ["avif"; "webp"; "jpg"; "jpeg"; "png"; "gif"; "svg"].

Record Response : Type := mkResponse {
  resp_url : string;
  status : Z;
  statusText : string;
  resp_headers : gmap string string;
  body : string
}.

(** [response.ok] *)
Definition ok (response : Response) : bool :=
  (200 <=? status response) && (status response <=? 299).

(** A [Request], or an object literal with a [url] and no [headers]. *)
Record Request : Type := mkRequest {
  req_url : string;
  req_headers : option (gmap string string)
}.

(** A cache holds its entries in insertion order, one per request URL. *)
Definition Cache : Type := list (string * Response).

(** ** Strings *)

Definition is_whitespace (c : ascii) : bool :=
  let n := N_of_ascii c in
  ((9 <=? n) && (n <=? 13) || (n =? 32) || (n =? 160))%N.

Fixpoint trimStart (s : string) : string :=
  match s with
  | String c rest => if is_whitespace c then trimStart rest else s
  | "" => ""
  end.

(** The value of a digit in the given radix. *)
Definition digit_of (radix : Z) (c : ascii) : option Z :=
  let n := Z.of_N (N_of_ascii c) in
  let d :=
    if (48 <=? n) && (n <=? 57) then Some (n - 48)
    else if (97 <=? n) && (n <=? 122) then Some (n - 97 + 10)
    else if (65 <=? n) && (n <=? 90) then Some (n - 65 + 10)
    else None in
  match d with
  | Some v => if v <? radix then Some v else None
  | None => None
  end.

(** The longest prefix of digits, read in the given radix; [acc] is [None]
    until a digit has been read. *)
Fixpoint parseDigits (radix : Z) (acc : option Z) (s : string) : option Z :=
  match s with
  | String c rest =>
      match digit_of radix c with
      | Some d => parseDigits radix (Some (default 0 acc * radix + d)) rest
      | None => acc
      end
  | "" => acc
  end.

(** [parseInt(s)] without a radix; [None] is NaN. *)
Definition parseInt (s : string) : option Z :=
  let s := trimStart s in
  let '(sign, s) :=
    match s with
    | String "-" rest => (-1, rest)
    | String "+" rest => (1, rest)
    | _ => (1, s)
    end in
  let '(radix, s) :=
    match s with
    | String "0" (String "x" rest) | String "0" (String "X" rest) => (16, rest)
    | _ => (10, s)
    end in
  match parseDigits radix None s with
  | Some n => Some (sign * n)
  | None => None
  end.

(** [parseInt(headers.get(name))]: a missing header is [null], which
    [parseInt] reads as the string null. *)
Definition parseIntHeader (headers : gmap string string) (name : string) : option Z :=
  parseInt (default "null" (headers !! name)).

(** [n || d] on the result of [parseInt]. *)
Definition int_or_default (n : option Z) (d : Z) : Z :=
  match n with
  | Some 0 | None => d
  | Some z => z
  end.

Definition toLowerCaseAscii (c : ascii) : ascii :=
  let n := N_of_ascii c in
  if ((65 <=? n) && (n <=? 90))%N then ascii_of_N (n + 32) else c.

Fixpoint toLowerCase (s : string) : string :=
  match s with
  | String c rest => String (toLowerCaseAscii c) (toLowerCase rest)
  | "" => ""
  end.

Definition endsWith (s suffix : string) : bool :=
  let n := String.length s in
  let m := String.length suffix in
  (m <=? n)%nat && String.eqb (substring (n - m) m s) suffix.

Fixpoint includes (s sub : string) : bool :=
  String.prefix sub s
  || match s with
     | String _ rest => includes rest sub
     | "" => false
     end.

(** [s.split('-')[0]] *)
Fixpoint splitDashHead (s : string) : string :=
  match s with
  | String c rest => if Ascii.eqb c "-" then "" else String c (splitDashHead rest)
  | "" => ""
  end.

(** ** Service worker: requests, expiry, eviction *)

Section ServiceWorker.

(** [new URL(u).pathname]; [None] when the constructor throws. *)
Variable URL_pathname : string -> option string.
(** The key [generateCacheKey] derives from the request URL and the device
    capabilities with [URL] and [URLSearchParams]. *)
Variable generateCacheKey : Request -> string.

Definition isImageRequest (request : Request) : completion bool :=
  match URL_pathname (req_url request) with
  | None => Throw "TypeError"
  | Some pathname =>
      let pathname := toLowerCase pathname in
      let hasImageExtension :=
        existsb (fun format => endsWith pathname ("." ++ format)) IMAGE_FORMATS in
      match req_headers request with
      | None => Throw "TypeError"
      | Some headers =>
          let acceptsImages :=
            match headers !! "accept" with
            | Some accept => includes accept "image/"
            | None => false
            end in
          Return (hasImageExtension || acceptsImages)
      end
  end.


(** [cache.match(key)] *)
Definition cache_match (cache : Cache) (key : string) : option Response :=
  prop cache key.

(** [cache.delete(key)] *)
Definition cache_delete (cache : Cache) (key : string) : Cache :=
  filter (fun entry => entry.1 <> key) cache.

(** [cache.put(key, response)] *)
Definition cache_put (cache : Cache) (key : string) (response : Response) : Cache :=
  (cache_delete cache key ++ [(key, response)])%list.

(** [await caches.open(name)] on the cache storage. *)
Definition caches_open (caches : gmap string Cache) (name : string) : Cache :=
  default [] (caches !! name).

Record Item : Type := mkItem {
  item_request : option string;
  item_response : Response;
  item_size : Z;
  cachedAt : Z
}.

(** [parseInt(response.headers.get('content-length')) || 1024] *)
Definition sizeOf (response : Response) : Z :=
  int_or_default (parseIntHeader (resp_headers response) "content-length") 1024.

(** [parseInt(response.headers.get('sw-cached-at')) || 0] *)
Definition cachedAtOf (response : Response) : Z :=
  int_or_default (parseIntHeader (resp_headers response) "sw-cached-at") 0.

(** The callback of [map] in [manageCacheSize]. *)
Definition toItem (requests : list string) (index : nat) (response : Response) : Item :=
  mkItem (requests !! index) response (sizeOf response) (cachedAtOf response).

(** [Array.prototype.sort] with the comparator [a.cachedAt - b.cachedAt]:
    a stable sort. *)
Fixpoint insertByCachedAt (x : Item) (l : list Item) : list Item :=
  match l with
  | [] => [x]
  | y :: rest =>
      if cachedAt x <=? cachedAt y then x :: y :: rest
      else y :: insertByCachedAt x rest
  end.

Definition sortByCachedAt (l : list Item) : list Item :=
  foldr insertByCachedAt [] l.

Definition responseData (cache : Cache) : list Item :=
  let requests := map fst cache in
  let responses := map (cache_match cache) requests in
  sortByCachedAt (imap (toItem requests) (omap id responses)).

Definition maxSizeOf (cacheName : string) : Z :=
  int_or_default (prop MAX_CACHE_SIZE (splitDashHead cacheName)) (50 * 1024 * 1024).

(** [await cache.delete(oldest.request)]; the request is [undefined] only
    for an index past the end of [requests]. *)
Definition deleteItem (cache : Cache) (oldest : Item) : Cache :=
  match item_request oldest with
  | Some key => cache_delete cache key
  | None => cache
  end.

(** The [while] loop of [manageCacheSize]. *)
Fixpoint evictLoop (maxSize currentSize : Z) (responseData : list Item)
    (cache : Cache) : Cache :=
  match responseData with
  | [] => cache
  | oldest :: rest =>
      if currentSize >? maxSize then
        evictLoop maxSize (currentSize - item_size oldest) rest (deleteItem cache oldest)
      else cache
  end.

Definition manageCacheSize (caches : gmap string Cache) (cacheName : string)
  : gmap string Cache :=
  let cache := caches_open caches cacheName in
  let maxSize := maxSizeOf cacheName in
  let responseData := responseData cache in
  let currentSize := foldl (fun sum item => sum + item_size item) 0 responseData in
  <[cacheName := evictLoop maxSize currentSize responseData cache]> caches.

(** The response [cacheResponse] builds: a new [Response] has no URL. *)
Definition responseWithTimestamp (Date_now : Z) (response : Response) : Response :=
  mkResponse "" (status response) (statusText response)
             (<["sw-cached-at" := pretty Date_now]> (resp_headers response))
             (body response).

Definition cacheResponse (Date_now : Z) (caches : gmap string Cache)
    (request : Request) (response : option Response) (cacheName : option string)
  : completion (gmap string Cache) :=
  match response with
  | None => Return caches
  | Some response =>
      if negb (ok response) then Return caches
      else
        do cacheToUse <-
          match cacheName with
          | Some (String c s) => Return (String c s)
          | _ =>
              do isImage <- isImageRequest request;
              Return (if isImage then CACHE_NAMES.images else CACHE_NAMES.dynamic)
          end;
        let cache := caches_open caches cacheToUse in
        let cache := cache_put cache (req_url request)
                       (responseWithTimestamp Date_now response) in
        Return (manageCacheSize (<[cacheToUse := cache]> caches) cacheToUse)
  end.



End ServiceWorker.

(** ** The specification's wording, for comparison with the code *)





(** The default format policy as the specification words it. *)
Definition smartDetection_spec (support : FormatSupport) (network : string) : string :=
  if avif support && negb (String.eqb network "slow-2g") then "avif"
  else if webp support then "webp"
  else "jpg".

(** Adjacent entries related by [rel]. *)
Fixpoint adjacent (rel : JS.number -> JS.number -> bool) (l : list JS.number) : bool :=
  match l with
  | x :: (y :: _) as rest => rel x y && adjacent rel rest
  | _ => true
  end.

Definition strictlyAscending : list JS.number -> bool := adjacent JS.lt.
Definition nonDecreasing : list JS.number -> bool := adjacent JS.le.

(** The size the eviction pass attributes to a whole partition. *)
Definition totalSize (cache : Cache) : Z :=
  foldr (fun entry sum => sizeOf entry.2 + sum) 0 cache.

(** The item [manageCacheSize] builds for a cache entry. *)
Definition itemOf (entry : string * Response) : Item :=
  mkItem (Some entry.1) entry.2 (sizeOf entry.2) (cachedAtOf entry.2).

Definition olderOrEqual (a b : Item) : Prop := cachedAt a <= cachedAt b.

Definition sumSizes (data : list Item) : Z :=
  foldr (fun item sum => item_size item + sum) 0 data.

(** The first character of a positive decimal numeral. *)
Definition nonzeroDigit (c : ascii) : Prop :=
  c ∈ ["1"; "2"; "3"; "4"; "5"; "6"; "7"; "8"; "9"]%char.

(** A partition of three images that exceeds its budget of 50 MB. *)
Definition sampleResponse (size cachedAt : string) : Response :=
  mkResponse "" 200 "OK" {["content-length" := size; "sw-cached-at" := cachedAt]} "".

Definition sampleCaches : gmap string Cache :=
  {[ CACHE_NAMES.images :=
       [ ("https://cdn.example.com/a.jpg", sampleResponse "31457280" "3000");
         ("https://cdn.example.com/b.jpg", sampleResponse "31457280" "1000");
         ("https://cdn.example.com/c.jpg", sampleResponse "10485760" "2000") ] ]}.

(** A system in the given state. *)
Definition systemWith (variants : option (gmap string string))
    (support : FormatSupport) (network : string) (saveData : bool)
  : ImageOptimizationSystem :=
  mkSystem variants support
    (mkDeviceCapabilities (mkViewport (JS.of_Z 1280) (JS.of_Z 720)) (JS.of_Z 1)
       "desktop" (mkConnection network (JS.of_Z 10) (JS.of_Z 100) saveData)
       (JS.of_Z 4) (JS.of_Z 4) false false).

(** ** Service worker: state, request optimization, housekeeping *)

Record SWCapabilities : Type := mkSWCapabilities {
  sw_deviceType : string;
  sw_dpr : JS.number;
  sw_effectiveType : string;
  sw_downlink : JS.number;
  sw_rtt : JS.number
}.

(** [this.deviceCapabilities] and [this.connectionType]; both start as
    [null]. *)
Record ImageOptimizationSW : Type := mkSW {
  sw_deviceCapabilities : option SWCapabilities;
  connectionType : option string
}.

Definition newSW : ImageOptimizationSW := mkSW None None.

Definition detectCapabilities (this : ImageOptimizationSW) : ImageOptimizationSW :=
  let capabilities := mkSWCapabilities "desktop" (JS.of_Z 1) "4g" (JS.of_Z 10) (JS.of_Z 100) in
  mkSW (Some capabilities) (Some (sw_effectiveType capabilities)).

(** The case [UPDATE_DEVICE_CAPABILITIES] of [handleMessage]. *)
Definition updateDeviceCapabilities (this : ImageOptimizationSW)
    (capabilities : SWCapabilities) : ImageOptimizationSW :=
  mkSW (Some capabilities) (Some (sw_effectiveType capabilities)).

(** [this.connectionType === name] *)
Definition connectionIs (this : ImageOptimizationSW) (name : string) : bool :=
  match connectionType this with
  | Some t => String.eqb t name
  | None => false
  end.

Definition getOptimalQuality (this : ImageOptimizationSW) : JS.number :=
  if connectionIs this "slow-2g" then JS.of_Z 50
  else if connectionIs this "2g" then JS.of_Z 60
  else if connectionIs this "3g" then JS.of_Z 70
  else if connectionIs this "4g" then JS.of_Z 80
  else JS.of_Z 75.

Definition getTimeoutForConnection (this : ImageOptimizationSW) : Z :=
  if connectionIs this "slow-2g" then 8000
  else if connectionIs this "2g" then 6000
  else if connectionIs this "3g" then 4000
  else if connectionIs this "4g" then 2000
  else 3000.

(** A value handed to [URLSearchParams.set], before its conversion to a
    string. *)
Inductive ParamValue : Type :=
| PStr (s : string)
| PNum (n : JS.number).

(** [params.set(name, value)]: the first entry of that name takes the value
    and the others are dropped; a new name is appended. *)
Fixpoint params_set (params : list (string * ParamValue)) (name : string)
    (value : ParamValue) : list (string * ParamValue) :=
  match params with
  | [] => [(name, value)]
  | (k, v) :: rest =>
      if String.eqb k name
      then (k, value) :: filter (fun entry => entry.1 <> name) rest
      else (k, v) :: params_set rest name value
  end.

(** What [optimizeRequest] resolves with: the request itself, or a new
    request whose URL carries these search parameters. *)
Inductive OptimizedRequest : Type :=
| SameRequest
| NewRequest (params : list (string * ParamValue)).

Section OptimizeRequest.

Variable URL_pathname : string -> option string.
(** [new URL(u).searchParams.has(name)] *)
Variable URL_hasParam : string -> string -> bool.

(** [None]: the promise of [getBestFormat] stays pending. *)
Definition optimizeRequest {Client : Type} (this : ImageOptimizationSW)
    (clients : list Client) (messages : list Message) (request : Request)
  : completion (option OptimizedRequest) :=
  match URL_pathname (req_url request) with
  | None => Throw "TypeError"
  | Some _ =>
      if URL_hasParam (req_url request) "optimized" then Return (Some SameRequest)
      else
        match getBestFormat clients messages with
        | None => Return None
        | Some supportedFormat =>
            let params := [] in
            let params :=
              match supportedFormat with
              | "" => params
              | _ => params_set params "f" (PStr supportedFormat)
              end in
            let quality := getOptimalQuality this in
            let params := params_set params "q" (PNum quality) in
            let params := params_set params "auto" (PStr "compress,format") in
            let params :=
              match sw_deviceCapabilities this with
              | Some capabilities =>
                  if JS.lt (JS.of_Z 1) (sw_dpr capabilities)
                  then params_set params "dpr"
                         (PNum (JS.min (sw_dpr capabilities) (JS.of_Z 2)))
                  else params
              | None => params
              end in
            let params :=
              if connectionIs this "slow-2g" || connectionIs this "2g"
              then params_set params "q"
                     (PNum (JS.max (JS.of_Z 30) (JS.mul quality 0.7)))
              else params in
            Return (Some (NewRequest params))
        end
  end.

End OptimizeRequest.

(** [Object.values(CACHE_NAMES)] *)
Definition currentCaches : list string :=
  [CACHE_NAMES.images; CACHE_NAMES.static; CACHE_NAMES.dynamic; CACHE_NAMES.optimized].

(** [cleanupOldCaches]; [cacheNames] is what [caches.keys()] resolves
    with. *)
Definition cleanupOldCaches (cacheNames : list string) (caches : gmap string Cache)
  : gmap string Cache :=
  foldl (fun caches cacheName => delete cacheName caches) caches
        (filter (fun cacheName => cacheName ∉ currentCaches) cacheNames).

(** [cache.keys().then(keys => Promise.all(keys.map(key => cache.delete(key))))] *)
Definition deleteAllKeys (cache : Cache) : Cache :=
  foldl cache_delete cache (map fst cache).

Definition clearImageCache (caches : gmap string Cache) : gmap string Cache :=
  let imageCache := caches_open caches CACHE_NAMES.images in
  let optimizedCache := caches_open caches CACHE_NAMES.optimized in
  <[CACHE_NAMES.optimized := deleteAllKeys optimizedCache]>
    (<[CACHE_NAMES.images := deleteAllKeys imageCache]> caches).

(** A double quote. *)
Definition dq : string := String (ascii_of_nat 34) "".

(** The template literal of [generatePlaceholderSVG]; the caption is
    Japanese text, carried here as its UTF-8 bytes. *)
Definition generatePlaceholderSVG : string :=
  "
            <svg width=" ++ dq ++ "300" ++ dq ++ " height=" ++ dq ++ "200" ++ dq
  ++ " xmlns=" ++ dq ++ "http://www.w3.org/2000/svg" ++ dq ++ ">
                <rect width=" ++ dq ++ "100%" ++ dq ++ " height=" ++ dq ++ "100%" ++ dq
  ++ " fill=" ++ dq ++ "#f3f4f6" ++ dq ++ "/>
                <text x=" ++ dq ++ "50%" ++ dq ++ " y=" ++ dq ++ "50%" ++ dq
  ++ " text-anchor=" ++ dq ++ "middle" ++ dq ++ " dy=" ++ dq ++ ".3em" ++ dq ++ "
                      font-family=" ++ dq ++ "Arial" ++ dq ++ " font-size=" ++ dq ++ "14" ++ dq
  ++ " fill=" ++ dq ++ "#9ca3af" ++ dq ++ ">
                    画像を読み込めません
                </text>
            </svg>
        ".

(** The first cache, in the order of [caches.keys()], that matches. *)
Fixpoint firstMatch (cacheNames : list string) (caches : gmap string Cache)
    (key : string) : option Response :=
  match cacheNames with
  | [] => None
  | cacheName :: rest =>
      match cache_match (caches_open caches cacheName) key with
      | Some cachedResponse => Some cachedResponse
      | None => firstMatch rest caches key
      end
  end.

(** [handleImageFallback]; [allCaches] is what [caches.keys()] resolves
    with. *)
Definition handleImageFallback (allCaches : list string) (caches : gmap string Cache)
    (request : Request) : Response :=
  match firstMatch allCaches caches (req_url request) with
  | Some cachedResponse => cachedResponse
  | None =>
      mkResponse "" 200 ""
        {["content-type" := "image/svg+xml"; "cache-control" := "no-cache"]}
        generatePlaceholderSVG
  end.

Definition handleFallback (allCaches : list string) (caches : gmap string Cache)
    (request : Request) : Response :=
  match firstMatch allCaches caches (req_url request) with
  | Some cachedResponse => cachedResponse
  | None =>
      mkResponse "" 503 "Service Unavailable"
        {["content-type" := "text/plain;charset=UTF-8"]} "Resource not available"
  end.

(** How [fetch] settles: with a response, or rejected (network error or
    abort). *)
Inductive FetchOutcome : Type :=
| Responds (response : Response)
| NetworkError.

Definition CDN_DOMAINS : list string :=
  ["cdn.example.com"; "images.example.com"; "cdn2.example.com"].

(** What a fetch handler resolves with: the response, the cache storage and
    the worker's state afterwards. *)
Record Handled : Type := mkHandled {
  h_response : Response;
  h_caches : gmap string Cache;
  h_this : ImageOptimizationSW
}.

Section HandleFetch.

Variable URL_pathname : string -> option string.
Variable URL_hasParam : string -> string -> bool.
(** [new URL(u).hostname] *)
Variable URL_hostname : string -> string.
(** The [href] of [new URL(u)] after [hostname = domain]. *)
Variable URL_setHostname : string -> string -> string.
(** The [href] of [new URL(u)] after [search = params.toString()]. *)
Variable URL_setSearch : string -> list (string * ParamValue) -> string.
Variable generateCacheKey : Request -> string.
(** [fetch(request, { signal })]: the second argument is the delay after
    which the signal aborts, when a signal is passed. *)
Variable fetch : Request -> option Z -> FetchOutcome.

(** The loop of [tryFallbackCDN] over the remaining domains. *)
Fixpoint tryFallbackDomains (Date_now : Z) (request : Request)
    (fallbackDomains : list string) (caches : gmap string Cache)
  : option Response * gmap string Cache :=
  match fallbackDomains with
  | [] => (None, caches)
  | domain :: rest =>
      let fallbackRequest :=
        mkRequest (URL_setHostname (req_url request) domain) (req_headers request) in
      match fetch fallbackRequest None with
      | Responds response =>
          if ok response then
            match cacheResponse URL_pathname Date_now caches request (Some response) None with
            | Return caches => (Some response, caches)
            | Throw _ => tryFallbackDomains Date_now request rest caches
            end
          else tryFallbackDomains Date_now request rest caches
      | NetworkError => tryFallbackDomains Date_now request rest caches
      end
  end.

Definition tryFallbackCDN (Date_now : Z) (caches : gmap string Cache)
    (request : Request) : completion (option Response * gmap string Cache) :=
  match URL_pathname (req_url request) with
  | None => Throw "TypeError"
  | Some _ =>
      let fallbackDomains :=
        filter (fun domain =>
                  includes (URL_hostname (req_url request)) domain = false)
               CDN_DOMAINS in
      Return (tryFallbackDomains Date_now request fallbackDomains caches)
  end.

(** The request [optimizeRequest] resolves with. *)
Definition toRequest (request : Request) (optimized : OptimizedRequest) : Request :=
  match optimized with
  | SameRequest => request
  | NewRequest params =>
      mkRequest (URL_setSearch (req_url request) params) (req_headers request)
  end.

(** [fetchImageWithStrategy]; [None]: the handler never settles.
    [allCaches] is what [caches.keys()] resolves with in
    [handleImageFallback]. *)
Definition fetchImageWithStrategy {Client : Type} (Date_now : Z)
    (allCaches : list string) (clients : list Client) (messages : list Message)
    (this : ImageOptimizationSW) (caches : gmap string Cache) (request : Request)
  : completion (option Handled) :=
  match URL_pathname (req_url request) with
  | None => Throw "TypeError"
  | Some _ =>
      let this := detectCapabilities this in
      let catch : completion (option Handled) :=
        do fallback <- tryFallbackCDN Date_now caches request;
        match fallback with
        | (Some fallbackResponse, caches) =>
            Return (Some (mkHandled fallbackResponse caches this))
        | (None, caches) =>
            Return (Some (mkHandled (handleImageFallback allCaches caches request)
                                    caches this))
        end in
      (* try *)
      let timeout := getTimeoutForConnection this in
      match optimizeRequest URL_pathname URL_hasParam this clients messages request with
      | Throw _ => catch
      | Return None => Return None
      | Return (Some optimized) =>
          match fetch (toRequest request optimized) (Some timeout) with
          | Responds response =>
              if ok response then
                match cacheResponse URL_pathname Date_now caches request
                        (Some response) None with
                | Return caches => Return (Some (mkHandled response caches this))
                | Throw _ => catch
                end
              else catch
          | NetworkError => catch
          end
      end
  end.



End HandleFetch.

(** ** Closed form of the string hash *)

(** The base-31 polynomial of the character codes, in unbounded
    arithmetic. *)
Definition polynomial31 (str : string) : Z :=
  fold_left (fun hash c => 31 * hash + charCodeAt c) (list_ascii_of_string str) 0.

(** ** Dimensions of the optimized image *)

Module Num.

(** [a / b]; a zero divisor counts as +0. *)
Definition div (a b : JS.number) : JS.number :=
  match a, b with
  | JS.NaN, _ | _, JS.NaN => JS.NaN
  | JS.Infinity _, JS.Infinity _ => JS.NaN
  | JS.Infinity s, JS.Fin q => JS.Infinity (xorb s (JS.Qneg_b q))
  | JS.Fin _, JS.Infinity _ => JS.of_Z 0
  | JS.Fin p, JS.Fin q =>
      if Qeq_bool q 0%Q
      then (if Qeq_bool p 0%Q then JS.NaN else JS.Infinity (JS.Qneg_b p))
      else JS.Fin (p / q)%Q
  end.

End Num.

(** The block [if (devicePixelRatio > 1 && !connection.saveData)] of
    [calculateOptimalDimensions]. *)
Definition adjustForPixelRatio (capabilities : DeviceCapabilities)
    (optimalWidth optimalHeight : JS.number) : JS.number * JS.number :=
  if JS.lt (JS.of_Z 1) (devicePixelRatio capabilities)
     && negb (saveData (connection capabilities))
  then (JS.round (JS.mul optimalWidth (JS.min (devicePixelRatio capabilities) (JS.of_Z 2))),
        JS.round (JS.mul optimalHeight (JS.min (devicePixelRatio capabilities) (JS.of_Z 2))))
  else (optimalWidth, optimalHeight).

(** The block [if (deviceType === 'mobile')]. *)
Definition constrainToViewport (capabilities : DeviceCapabilities)
    (optimalWidth optimalHeight : JS.number) : JS.number * JS.number :=
  if String.eqb (deviceType capabilities) "mobile" then
    let maxWidth := JS.mul (vp_width (viewport capabilities)) 0.9 in
    if JS.lt maxWidth optimalWidth then
      let ratio := Num.div maxWidth optimalWidth in
      (JS.round maxWidth, JS.round (JS.mul optimalHeight ratio))
    else (optimalWidth, optimalHeight)
  else (optimalWidth, optimalHeight).

(** [calculateOptimalDimensions] on numeric arguments. *)
Definition calculateOptimalDimensions (sys : ImageOptimizationSystem)
    (requestedWidth requestedHeight : JS.number) : Dimensions :=
  let capabilities := deviceCapabilities sys in
  let '(optimalWidth, optimalHeight) :=
    adjustForPixelRatio capabilities requestedWidth requestedHeight in
  let '(optimalWidth, optimalHeight) :=
    constrainToViewport capabilities optimalWidth optimalHeight in
  mkDimensions optimalWidth optimalHeight requestedWidth requestedHeight.

(** ** Percentiles and summaries of collected metrics

    The arrays hold finite numbers, modelled as rationals. *)













(** ** ImageOptimizationABTesting: events and forced variants *)

(** A value of an event's [data] object. *)
Inductive Field : Type :=
| FStr (s : string)
| FNum (n : Z).

Record EventData : Type := mkEventData {
  ev_userId : string;
  ev_sessionId : string;
  eventType : string;
  ev_data : list (string * Field);
  ev_timestamp : Z;
  ev_url : string;
  ev_userAgent : string;
  ev_experiments : gmap string assigned
}.

(** [window.location.href], [navigator.userAgent] and
    ['sendBeacon' in navigator]. *)
Record Page : Type := mkPage {
  href : string;
  userAgent : string;
  hasSendBeacon : bool
}.

(** [this.config.dataCollection] *)
Record DataCollection : Type := mkDataCollection {
  batchSize : Z;
  persistLocally : bool
}.

Definition default_dataCollection : DataCollection := mkDataCollection 50 true.

(** The item [ab_test_events] of [localStorage]: missing, not the JSON text
    of an array, or the parsed array. *)
Inductive EventsItem : Type :=
| Absent
| Unparsable
| Events (events : list EventData).

(** What [JSON.parse(JSON.stringify(event))] keeps of the assignments:
    [undefined] values are dropped. *)
Definition jsonEvent (e : EventData) : EventData :=
  mkEventData (ev_userId e) (ev_sessionId e) (eventType e) (ev_data e) (ev_timestamp e)
              (ev_url e) (ev_userAgent e) (fromJSON <$> omap toJSON (ev_experiments e)).

(** [storeEventLocally]; a [JSON.parse] or [push] that throws is caught and
    nothing is written. *)
Definition storeEventLocally (item : EventsItem) (eventData : EventData) : EventsItem :=
  let parsed :=
    match item with
    | Absent => Some []
    | Unparsable => None
    | Events events => Some events
    end in
  match parsed with
  | None => item
  | Some stored =>
      let stored := (stored ++ [jsonEvent eventData])%list in
      let stored :=
        if (1000 <? length stored)%nat then drop (length stored - 1000) stored
        else stored in
      Events stored
  end.

(** A batch handed to the network. *)
Inductive Dispatch : Type :=
| SendBeacon (events : list EventData)
| Fetch (events : list EventData).

Record Session : Type := mkSession {
  s_this : ImageOptimizationABTesting;
  s_dataCollection : DataCollection;
  s_page : Page;
  dataQueue : list EventData;
  s_localStorage : LocalStorage;
  ab_test_events : EventsItem
}.

Definition with_queue (s : Session) (queue : list EventData) : Session :=
  mkSession (s_this s) (s_dataCollection s) (s_page s) queue (s_localStorage s)
            (ab_test_events s).

(** [sendBatchedData] up to the call of [sendBeacon] or [fetch]. *)
Definition sendBatchedData (s : Session) (isBeacon : bool)
  : Session * option Dispatch :=
  match dataQueue s with
  | [] => (s, None)
  | events =>
      (with_queue s [],
       Some (if isBeacon && hasSendBeacon (s_page s) then SendBeacon events
             else Fetch events))
  end.

(** The [catch] block of [sendBatchedData], run when the [fetch] of
    [events] rejects. *)
Definition fetchRejected (s : Session) (events : list EventData) : Session :=
  with_queue s (events ++ dataQueue s)%list.

Definition with_events (s : Session) (item : EventsItem) : Session :=
  mkSession (s_this s) (s_dataCollection s) (s_page s) (dataQueue s) (s_localStorage s)
            item.

(** The [eventData] object [trackEvent] builds. *)
Definition newEvent (s : Session) (now : Z) (type : string)
    (data : list (string * Field)) : EventData :=
  mkEventData (userId (s_this s)) (sessionId (s_this s)) type data now
              (href (s_page s)) (userAgent (s_page s)) (userAssignments (s_this s)).

(** The [push] of [trackEvent] and the send of a full queue. *)
Definition enqueue (s : Session) (eventData : EventData) : Session * option Dispatch :=
  let s := with_queue s (dataQueue s ++ [eventData])%list in
  if batchSize (s_dataCollection s) <=? Z.of_nat (length (dataQueue s))
  then sendBatchedData s false
  else (s, None).

Definition trackEvent (s : Session) (now : Z) (type : string)
    (data : list (string * Field)) : Session * option Dispatch :=
  let eventData := newEvent s now type data in
  let '(s, dispatch) := enqueue s eventData in
  let s :=
    if persistLocally (s_dataCollection s)
    then with_events s (storeEventLocally (ab_test_events s) eventData)
    else s in
  (s, dispatch).

(** The property names every object inherits from [Object.prototype]. *)
Definition Object_prototype : list string :=
  [ "constructor"; "__defineGetter__"; "__defineSetter__"; "hasOwnProperty";
    "__lookupGetter__"; "__lookupSetter__"; "isPrototypeOf"; "propertyIsEnumerable";
    "toString"; "valueOf"; "__proto__"; "toLocaleString" ].

(** [object[key]] on a plain object given by its own entries. *)
Inductive Property (A : Type) : Type :=
| Own (a : A)
| Inherited
| Missing.
Arguments Own {A} a.
Arguments Inherited {A}.
Arguments Missing {A}.

Definition get {A : Type} (entries : list (string * A)) (key : string) : Property A :=
  match prop entries key with
  | Some a => Own a
  | None => if decide (key ∈ Object_prototype) then Inherited else Missing
  end.

Definition with_assignments (s : Session) (assignments : gmap string assigned)
  : Session :=
  let this := mkFramework (experiments (s_this s)) assignments (userId (s_this s))
                          (sessionId (s_this s)) in
  mkSession this (s_dataCollection s) (s_page s) (dataQueue s)
            (saveUserAssignments this (s_localStorage s)) (ab_test_events s).

(** [forceVariant]; [now1] and [now2] are the two readings of the clock.
    An inherited member in place of an experiment has no [variants], and
    indexing [undefined] throws. *)
Definition forceVariant (s : Session) (now1 now2 : Z) (experimentId variantId : string)
  : completion (bool * Session * option Dispatch) :=
  match get (experiments (s_this s)) experimentId with
  | Missing => Return (false, s, None)
  | Inherited => Throw "TypeError"
  | Own experiment =>
      match get (variants experiment) variantId with
      | Missing => Return (false, s, None)
      | _ =>
          let s := with_assignments s
                     (<[experimentId := VariantId variantId]>
                        (userAssignments (s_this s))) in
          let '(s, dispatch) :=
            trackEvent s now2 "variantForced"
              [ ("experiment", FStr experimentId); ("variant", FStr variantId);
                ("timestamp", FNum now1) ] in
          Return (true, s, dispatch)
      end
  end.

Definition removeFromExperiment (s : Session) (now1 now2 : Z) (experimentId : string)
  : Session * option Dispatch :=
  let s := with_assignments s (delete experimentId (userAssignments (s_this s))) in
  trackEvent s now2 "experimentRemoved"
    [ ("experiment", FStr experimentId); ("timestamp", FNum now1) ].

(** The session [new ImageOptimizationABTesting()] starts on a page. *)
Definition newSession (exps : list (string * Experiment)) (env : Env) (page : Page)
    (ls : LocalStorage) (events : EventsItem) : Session :=
  let '(this, ls) := newFramework exps env ls in
  mkSession this default_dataCollection page [] ls events.

(** The batches the network holds: those whose [fetch] is not settled, and
    those it has taken (a [sendBeacon], or a [fetch] that resolved, whatever
    its status). *)
Record Network : Type := mkNetwork {
  pending : list (list EventData);
  taken : list (list EventData)
}.

Definition dispatchTo (network : Network) (dispatch : option Dispatch) : Network :=
  match dispatch with
  | None => network
  | Some (SendBeacon events) => mkNetwork (pending network) (taken network ++ [events])
  | Some (Fetch events) => mkNetwork (pending network ++ [events]) (taken network)
  end.

(** One step of a session and its network, labelled with the events it
    creates: an event is tracked; a timer, [beforeunload],
    [visibilitychange] or [destroy] sends the queue; a pending [fetch]
    resolves; a pending [fetch] rejects. *)
Inductive step : Session * Network -> list EventData -> Session * Network -> Prop :=
| step_track s network now type data s' dispatch :
    trackEvent s now type data = (s', dispatch) ->
    step (s, network) [newEvent s now type data] (s', dispatchTo network dispatch)
| step_send s network isBeacon s' dispatch :
    sendBatchedData s isBeacon = (s', dispatch) ->
    step (s, network) [] (s', dispatchTo network dispatch)
| step_resolved s before events after taken :
    step (s, mkNetwork (before ++ events :: after) taken) []
         (s, mkNetwork (before ++ after) (taken ++ [events]))
| step_rejected s before events after taken :
    step (s, mkNetwork (before ++ events :: after) taken) []
         (fetchRejected s events, mkNetwork (before ++ after) taken).

Inductive run : Session * Network -> list EventData -> Session * Network -> Prop :=
| run_done w : run w [] w
| run_step w created w' created' w'' :
    step w created w' -> run w' created' w'' -> run w (created ++ created') w''.

(** Every event the session or the network holds. *)
Definition eventsOf (w : Session * Network) : list EventData :=
  (dataQueue w.1 ++ concat (pending w.2) ++ concat (taken w.2))%list.

(** A first visit: empty storage, the default experiments. *)
Definition samplePage : Page := mkPage "https://example.com/gallery" "Mozilla/5.0" true.

Definition sampleEnv : Env := mkEnv 1700000000000 "k3j9x0q1z" 1700000000001 "p0o9i8u7y".

Definition sampleSession : Session :=
  newSession default_experiments sampleEnv samplePage (mkLocalStorage None None) Absent.

(** ** Lazy loading: images that fail to load *)

(** The UTF-16 code units of a string of Latin-1 characters. *)
Definition codeUnits (s : string) : list N := map N_of_ascii (list_ascii_of_string s).

(** [btoa(data)] throws when [data] holds a code unit above 255; otherwise
    it returns the base64 text, which the platform computes. *)
Definition btoa (base64 : list N -> string) (data : list N) : completion string :=
  if forallb (fun unit => (unit <=? 255)%N) data then Return (base64 data)
  else Throw "InvalidCharacterError".

(** The template literal [svg] of [generateDefaultPlaceholder], as code
    units; its caption is written in kanji and kana. *)
Definition defaultPlaceholderSvg : list N :=
  (codeUnits ("
            <svg width=" ++ dq ++ "300" ++ dq ++ " height=" ++ dq ++ "200" ++ dq
  ++ " xmlns=" ++ dq ++ "http://www.w3.org/2000/svg" ++ dq ++ ">
                <rect width=" ++ dq ++ "100%" ++ dq ++ " height=" ++ dq ++ "100%" ++ dq
  ++ " fill=" ++ dq ++ "#f3f4f6" ++ dq ++ "/>
                <text x=" ++ dq ++ "50%" ++ dq ++ " y=" ++ dq ++ "50%" ++ dq
  ++ " text-anchor=" ++ dq ++ "middle" ++ dq ++ " dy=" ++ dq ++ ".3em" ++ dq ++ "
                      font-family=" ++ dq ++ "Arial" ++ dq ++ " font-size=" ++ dq ++ "14" ++ dq
  ++ " fill=" ++ dq ++ "#9ca3af" ++ dq ++ ">
                    ")
   ++ [0x753B; 0x50CF; 0x304C; 0x8AAD; 0x307F; 0x8FBC; 0x3081; 0x307E; 0x305B; 0x3093;
       0x3067; 0x3057; 0x305F]%N
   ++ codeUnits "
                </text>
            </svg>
        ")%list.

Section LazyLoading.

Variable base64 : list N -> string.

Definition generateDefaultPlaceholder : completion string :=
  do encoded <- btoa base64 defaultPlaceholderSvg;
  Return ("data:image/svg+xml;base64," ++ encoded).

(** The parts of an [img] element that [handleImageError] reads and
    writes: the value assigned to [src], the [data-*] attributes and the
    class list. *)
Record HTMLImageElement : Type := mkImg {
  img_src : string;
  img_dataset : gmap string string;
  img_classList : list string
}.

(** [classList.add(name)] *)
Definition classList_add (classes : list string) (name : string) : list string :=
  if decide (name ∈ classes) then classes else (classes ++ [name])%list.

Definition handleImageError (img : HTMLImageElement) : completion HTMLImageElement :=
  match img_dataset img !! "fallbackSrc" with
  | Some (String c s) => Return (mkImg (String c s) (img_dataset img) (img_classList img))
  | _ =>
      do placeholder <- generateDefaultPlaceholder;
      Return (mkImg placeholder (img_dataset img)
                    (classList_add (img_classList img) "image-error"))
  end.

End LazyLoading.

(** ** Service worker: what a fetch handler may change in the caches *)


(** ** The optimized image *)

(** The [options] of [optimizeImage], with a numeric [width] and
    [height]; [None] is a property left [undefined]. *)
Record ImageOptions : Type := mkImageOptions {
  o_width : JS.number;
  o_height : JS.number;
  o_quality : option JS.number;
  o_priority : option string;
  o_placeholder : option bool;
  o_alt : option string;
  o_className : option string;
  o_loading : option string
}.

Record OptimizedImage : Type := mkOptimizedImage {
  oi_src : string;
  oi_srcset : string;
  oi_sizes : string;
  oi_placeholder : option string;
  oi_loading : string;
  oi_alt : string;
  oi_className : string;
  oi_data_priority : string
}.

Section OptimizeImage.

Variable encodeURIComponent : string -> string.
Variable URLSearchParams_toString : list (string * string) -> string.
Variable Number_toString : JS.number -> string.
Variable imageProxy : string.
(** [this.config.lazyLoading.placeholderQuality] *)
Variable placeholderQuality : JS.number.

Definition generateSizes (sys : ImageOptimizationSystem) (dimensions : Dimensions)
  : string :=
  let deviceType := deviceType (deviceCapabilities sys) in
  let originalWidth := Number_toString (originalWidth dimensions) in
  if String.eqb deviceType "mobile" then
    "(max-width: 768px) 100vw, " ++ originalWidth ++ "px"
  else if String.eqb deviceType "tablet" then
    "(max-width: 1024px) 50vw, " ++ originalWidth ++ "px"
  else originalWidth ++ "px".

Definition generatePlaceholder (src : string) (dimensions : Dimensions) : string :=
  let placeholderParams := URLSearchParams_toString
    [ ("url", encodeURIComponent src);
      ("w", Number_toString (JS.round (JS.mul (dim_width dimensions) (JS.Fin (1 # 10)))));
      ("h", Number_toString (JS.round (JS.mul (dim_height dimensions) (JS.Fin (1 # 10)))));
      ("q", Number_toString placeholderQuality);
      ("blur", Number_toString (JS.of_Z 5));
      ("f", "jpg") ] in
  imageProxy ++ "/optimize?" ++ placeholderParams.

Definition optimizeImage (sys : ImageOptimizationSystem) (src : string)
    (options : ImageOptions) : OptimizedImage :=
  let priority := default "medium" (o_priority options) in
  let placeholder := default true (o_placeholder options) in
  let alt := default "" (o_alt options) in
  let className := default "" (o_className options) in
  let loading := default "lazy" (o_loading options) in
  let format := selectOptimalFormat sys in
  let dimensions := calculateOptimalDimensions sys (o_width options) (o_height options) in
  let optimalQuality := calculateOptimalQuality sys (o_quality options) in
  let optimizedUrl :=
    generateOptimizedUrl encodeURIComponent URLSearchParams_toString Number_toString
      imageProxy sys src
      (mkUrlOptions format (dim_width dimensions) (dim_height dimensions)
                    optimalQuality) in
  mkOptimizedImage
    optimizedUrl
    (generateSrcSet encodeURIComponent URLSearchParams_toString Number_toString
       imageProxy sys src dimensions format optimalQuality)
    (generateSizes sys dimensions)
    (if placeholder then Some (generatePlaceholder src dimensions) else None)
    loading alt (className ++ " image-optimized") priority.

End OptimizeImage.

(** ** Image formats in the collected metrics *)

Section ImageFormats.

(** The [pathname] of [new URL(src, window.location.href)]; [None] when
    the constructor throws. *)
Variable URL_pathname : string -> option string.
(** [url.searchParams.get(name)] *)
Variable URL_searchParam : string -> string -> option string.

(** [url.searchParams.get('f') || url.searchParams.get('format')], then
    [if (format) return format; return 'unknown'] *)
Definition formatParameter (src : string) : string :=
  match URL_searchParam src "f" with
  | Some (String c s) => String c s
  | _ =>
      match URL_searchParam src "format" with
      | Some (String c s) => String c s
      | _ => "unknown"
      end
  end.

(** [getImageFormat] of [PerformanceMonitor]. *)
Definition monitor_getImageFormat (src : string) : string :=
  match URL_pathname src with
  | None => "unknown"
  | Some pathname =>
      let pathname := toLowerCase pathname in
      if includes pathname ".avif" then "avif"
      else if includes pathname ".webp" then "webp"
      else if includes pathname ".jpg" || includes pathname ".jpeg" then "jpeg"
      else if includes pathname ".png" then "png"
      else if includes pathname ".gif" then "gif"
      else if includes pathname ".svg" then "svg"
      else formatParameter src
  end.

(** [getImageFormat] of [ImageOptimizationABTesting]. *)
Definition abTesting_getImageFormat (src : string) : string :=
  match URL_pathname src with
  | None => "unknown"
  | Some pathname =>
      let pathname := toLowerCase pathname in
      if includes pathname ".avif" then "avif"
      else if includes pathname ".webp" then "webp"
      else if includes pathname ".jpg" || includes pathname ".jpeg" then "jpeg"
      else if includes pathname ".png" then "png"
      else formatParameter src
  end.

End ImageFormats.

(** A value of the [distribution] object: a count, or the text that [+]
    yields once an operand is not a number. *)
Inductive Count : Type :=
| CNumber (n : Z)
| CString (s : string).

Section FormatDistribution.

(** The text [Object.prototype[name]] converts to. *)
Variable inheritedText : string -> string.

(** [(distribution[format] || 0) + 1] *)
Definition incremented (distribution : gmap string Count) (format : string) : Count :=
  match distribution !! format with
  | Some (CNumber n) => if n =? 0 then CNumber 1 else CNumber (n + 1)
  | Some (CString "") => CNumber 1
  | Some (CString s) => CString (s ++ "1")
  | None =>
      if decide (format ∈ Object_prototype) then CString (inheritedText format ++ "1")
      else CNumber 1
  end.

(** [getFormatDistribution]; a load is given by its [format] property.  An
    assignment to [__proto__] of a value that is not an object is
    ignored. *)
Definition getFormatDistribution (imageLoads : list (option string))
  : gmap string Count :=
  foldl (fun distribution load =>
           let format := JS.str_or_default load "unknown" in
           if String.eqb format "__proto__" then distribution
           else <[format := incremented distribution format]> distribution)
        ∅ imageLoads.

End FormatDistribution.

(** How often [format] occurs among the loads, a missing or empty format
    counting as unknown. *)
Definition occurrences (imageLoads : list (option string)) (format : string) : Z :=
  Z.of_nat (length (filter (fun load => JS.str_or_default load "unknown" = format)
                           imageLoads)).

(** * Properties *)

(** ** Numbers *)

Section NumberFacts.

Lemma Qle_bool_inject_Z (a b : Z) :
  Qle_bool (inject_Z a) (inject_Z b) = (a <=? b).
Proof.
  unfold Qle_bool, inject_Z; simpl. by rewrite !Z.mul_1_r.
Qed.

Lemma round_not_NaN (n : JS.number) : n <> JS.NaN -> JS.round n <> JS.NaN.
Proof. by destruct n. Qed.

Lemma min_of_Z (a b : Z) : JS.min (JS.of_Z a) (JS.of_Z b) = JS.of_Z (Z.min a b).
Proof.
  unfold JS.min, JS.le, JS.of_Z. rewrite Qle_bool_inject_Z.
  destruct (a <=? b) eqn:E; f_equal; f_equal; lia.
Qed.

Lemma max_of_Z (a b : Z) : JS.max (JS.of_Z a) (JS.of_Z b) = JS.of_Z (Z.max a b).
Proof.
  unfold JS.max, JS.le, JS.of_Z. rewrite Qle_bool_inject_Z.
  destruct (a <=? b) eqn:E; f_equal; f_equal; lia.
Qed.

(** Clamping a number that is not NaN gives an integer of the interval. *)
Lemma clamp_int_in (lo hi : Z) (n : JS.number) :
  lo <= hi -> n <> JS.NaN ->
  JS.int_in lo hi (JS.max (JS.of_Z lo) (JS.min (JS.of_Z hi) (JS.round n))).
Proof.
  intros Hlohi Hn. destruct n as [|[]|q]; [done| | |].
  - exists lo. split; [done|lia].
  - exists hi. change (JS.min _ _) with (JS.of_Z hi).
    rewrite max_of_Z. split; [f_equal|]; lia.
  - change (JS.round (JS.Fin q)) with (JS.of_Z (Qfloor (q + (1 # 2)))).
    rewrite min_of_Z, max_of_Z. eexists. split; [done|lia].
Qed.

Lemma mul_not_NaN (n : JS.number) (q : Q) :
  n <> JS.NaN -> Qeq_bool q 0 = false -> JS.mul n (JS.Fin q) <> JS.NaN.
Proof.
  intros Hn Hq. destruct n as [| |p]; [done| |done]. simpl. by rewrite Hq.
Qed.

Lemma or_default_not_NaN (x : option JS.number) (d : JS.number) :
  d <> JS.NaN -> JS.or_default x d <> JS.NaN.
Proof.
  intros Hd. destruct x as [[| |q]|]; simpl; try done.
  by destruct (negb (Qeq_bool q 0)).
Qed.

(** Multiplying by one does not change what [Math.round] returns. *)
Lemma round_mul_one (n : JS.number) :
  JS.round (JS.mul n (JS.of_Z 1)) = JS.round n.
Proof.
  destruct n as [|s|q]; [done| by destruct s |].
  unfold JS.mul, JS.round, JS.of_Z. do 2 f_equal. apply Qfloor_comp.
  change (inject_Z 1) with 1%Q. by rewrite Qmult_1_r.
Qed.


End NumberFacts.

(** ** Format and quality selection *)

Section Selection.

Implicit Types (sys : ImageOptimizationSystem) (support : FormatSupport).

Lemma selectOptimalFormat_default sys :
  String.eqb (formatVariant sys) "avif-first" = false ->
  String.eqb (formatVariant sys) "webp-first" = false ->
  selectOptimalFormat sys =
    if saveData (connection (deviceCapabilities sys)) then "jpg"
    else smartDetection_spec (formatSupport sys)
           (effectiveType (connection (deviceCapabilities sys))).
Proof.
  intros H1 H2. unfold selectOptimalFormat, formatVariant in *.
  by rewrite H1, H2.
Qed.

(** C1, as stated, fails: under the variant avif-first the save-data flag
    is not read, and an AVIF-capable browser is served avif. *)
Lemma C1_saveData_avif_first_counterexample :
  let sys := systemWith (Some {["format-preference" := "avif-first"]})
                        (mkFormatSupport true true true) "4g" true in
  saveData (connection (deviceCapabilities sys)) = true
  /\ selectOptimalFormat sys = "avif"
  /\ selectOptimalFormat sys <> "jpg".
Proof. by vm_compute. Qed.

(** C1, amended: with saveData set, [selectOptimalFormat] returns jpg for
    every format support whenever the variant is smart-detection, is
    unassigned, or is any name other than avif-first and webp-first; those
    two variants do not read the flag. *)
Theorem C1_saveData_selects_jpg sys :
  saveData (connection (deviceCapabilities sys)) = true ->
  formatVariant sys <> "avif-first" ->
  formatVariant sys <> "webp-first" ->
  selectOptimalFormat sys = "jpg".
Proof.
  intros Hsave H1 H2.
  rewrite selectOptimalFormat_default by by apply String.eqb_neq.
  by rewrite Hsave.
Qed.

Lemma C1_saveData_selects_jpg_witness :
  selectOptimalFormat
    (systemWith (Some {["format-preference" := "smart-detection"]})
                (mkFormatSupport true true true) "4g" true) = "jpg".
Proof.
  apply C1_saveData_selects_jpg; [reflexivity | by vm_compute | by vm_compute].
Defined.

(** C7: under smart-detection, or with no variant assigned, and saveData
    unset, the format is avif exactly when avif is supported and the network
    is not slow-2g; otherwise webp when supported, else jpg.  In particular
    4g gives avif and slow-2g gives webp when both are supported. *)
Theorem C7_smart_detection :
  (forall sys,
     saveData (connection (deviceCapabilities sys)) = false ->
     variant_of sys "format-preference" = Some "smart-detection"
       \/ variant_of sys "format-preference" = None ->
     let network := effectiveType (connection (deviceCapabilities sys)) in
     let support := formatSupport sys in
     (selectOptimalFormat sys = "avif"
        <-> avif support = true /\ network <> "slow-2g")
     /\ (~ (avif support = true /\ network <> "slow-2g") ->
         selectOptimalFormat sys = if webp support then "webp" else "jpg"))
  /\ selectOptimalFormat
       (systemWith (Some {["format-preference" := "smart-detection"]})
                   (mkFormatSupport true true true) "4g" false) = "avif"
  /\ selectOptimalFormat
       (systemWith (Some {["format-preference" := "smart-detection"]})
                   (mkFormatSupport true true true) "slow-2g" false) = "webp".
Proof.
  split; [|split; reflexivity].
  intros sys Hsave Hvariant network support.
  assert (selectOptimalFormat sys = smartDetection_spec support network) as ->.
  { rewrite selectOptimalFormat_default, Hsave; [done| |];
      unfold formatVariant; by destruct Hvariant as [-> | ->]. }
  unfold smartDetection_spec.
  destruct (avif support), (String.eqb_spec network "slow-2g") as [Heq|Hne];
    simpl; (split; [split|]).
  all: try (destruct (webp support); intros; discriminate).
  all: try (intros; reflexivity).
  all: try (intros [? ?]; congruence).
  all: try (intros Hnot; exfalso; apply Hnot; by split).
  all: intros; by split.
Qed.

Lemma C7_smart_detection_witness :
  let sys := systemWith None (mkFormatSupport true false true) "slow-2g" false in
  (selectOptimalFormat sys = "avif"
     <-> avif (formatSupport sys) = true
         /\ effectiveType (connection (deviceCapabilities sys)) <> "slow-2g")
  /\ (~ (avif (formatSupport sys) = true
         /\ effectiveType (connection (deviceCapabilities sys)) <> "slow-2g") ->
      selectOptimalFormat sys = if webp (formatSupport sys) then "webp" else "jpg").
Proof.
  intros sys.
  apply (proj1 C7_smart_detection sys); [reflexivity | right; reflexivity].
Defined.

(** C3: for every requested quality (absent included), every variant and
    every connection, [calculateOptimalQuality] returns an integer of
    [30, 95]. *)
Theorem C3_quality_within_30_95 sys (requestedQuality : option JS.number) :
  JS.int_in 30 95 (calculateOptimalQuality sys requestedQuality).
Proof.
  unfold calculateOptimalQuality.
  apply clamp_int_in; [lia|].
  set (base := JS.or_default requestedQuality (JS.of_Z 80)).
  assert (base <> JS.NaN) as Hbase by by apply or_default_not_NaN.
  set (base1 := if String.eqb _ "aggressive" then _ else _).
  assert (base1 <> JS.NaN) as Hbase1.
  { subst base1. repeat case_match; try done; by apply mul_not_NaN. }
  repeat case_match; try done; by apply mul_not_NaN.
Qed.



End Selection.

(** ** Responsive srcset *)

Section SrcsetFacts.

Variable encodeURIComponent : string -> string.
Variable URLSearchParams_toString : list (string * string) -> string.
Variable Number_toString : JS.number -> string.
Variable imageProxy : string.

Let candidates :=
  srcSetCandidates encodeURIComponent URLSearchParams_toString Number_toString
                   imageProxy.

Lemma lt_of_Z (a b : Z) : JS.lt (JS.of_Z a) (JS.of_Z b) = (a <? b).
Proof.
  unfold JS.lt, JS.of_Z. rewrite Qle_bool_inject_Z.
  destruct (a <? b) eqn:E, (b <=? a) eqn:F; try done; lia.
Qed.

Lemma le_of_Z (a b : Z) : JS.le (JS.of_Z a) (JS.of_Z b) = (a <=? b).
Proof. unfold JS.le, JS.of_Z. by rewrite Qle_bool_inject_Z. Qed.

(** The four scaled widths of an integer base width. *)
Lemma srcSetWidths_of_Z (w : Z) (h ow oh : JS.number) :
  srcSetWidths (mkDimensions (JS.of_Z w) h ow oh) =
    [JS.of_Z ((w + 1) / 2); JS.of_Z w; JS.of_Z ((3 * w + 1) / 2); JS.of_Z (2 * w)].
Proof.
  unfold srcSetWidths, breakpoints, JS.round, JS.mul, JS.of_Z; simpl map.
  unfold Qfloor, Qplus, Qmult, inject_Z; simpl Qnum; simpl Qden.
  repeat (apply (f_equal2 cons); [apply (f_equal JS.of_Z)|]); try done.
  all: cbn [Pos.mul]; Z.div_mod_to_equations; lia.
Qed.

Lemma candidates_widths sys src dimensions format quality :
  map snd (candidates sys src dimensions format quality) = srcSetWidths dimensions.
Proof. reflexivity. Qed.

(** C5, as stated, fails at base width 1: the widths are 1, 1, 2, 2, which
    is not strictly ascending. *)
Lemma C5_width_one_counterexample :
  let dimensions := mkDimensions (JS.of_Z 1) (JS.of_Z 1) (JS.of_Z 1) (JS.of_Z 1) in
  srcSetWidths dimensions = [JS.of_Z 1; JS.of_Z 1; JS.of_Z 2; JS.of_Z 2]
  /\ strictlyAscending (srcSetWidths dimensions) = false.
Proof. by vm_compute. Qed.

(** C5, amended: for positive integer base width and height,
    [generateSrcSet] lists exactly 4 entries, whose widths are
    round(width * 0.5), round(width * 1), round(width * 1.5) and
    round(width * 2), in non-decreasing order, and in strictly ascending
    order whenever the base width is at least 2. *)
Theorem C5_srcset_four_widths sys src format quality (w h : Z) (ow oh : JS.number) :
  0 < w -> 0 < h ->
  let dimensions := mkDimensions (JS.of_Z w) (JS.of_Z h) ow oh in
  let entries := candidates sys src dimensions format quality in
  length entries = 4%nat
  /\ map snd entries =
       [ JS.round (JS.mul (JS.of_Z w) 0.5); JS.round (JS.mul (JS.of_Z w) (JS.of_Z 1));
         JS.round (JS.mul (JS.of_Z w) 1.5); JS.round (JS.mul (JS.of_Z w) (JS.of_Z 2)) ]
  /\ map snd entries =
       [JS.of_Z ((w + 1) / 2); JS.of_Z w; JS.of_Z ((3 * w + 1) / 2); JS.of_Z (2 * w)]
  /\ nonDecreasing (map snd entries) = true
  /\ (2 <= w -> strictlyAscending (map snd entries) = true).
Proof.
  intros Hw Hh dimensions entries.
  assert (map snd entries = srcSetWidths dimensions) as Hwidths by done.
  split; [done|]. split; [done|].
  rewrite Hwidths. subst dimensions. rewrite srcSetWidths_of_Z.
  split; [done|].
  unfold nonDecreasing, strictlyAscending, adjacent.
  rewrite !le_of_Z, !lt_of_Z. split.
  - rewrite !andb_true_r, !andb_true_iff, !Z.leb_le.
    repeat split; Z.div_mod_to_equations; lia.
  - intros Hw2. rewrite !andb_true_r, !andb_true_iff, !Z.ltb_lt.
    repeat split; Z.div_mod_to_equations; lia.
Qed.

(** The string [generateSrcSet] returns is these four entries, each an URL,
    a space, the width and the letter w, joined by a comma and a space. *)
Lemma generateSrcSet_entries sys src dimensions format quality :
  exists u1 u2 u3 u4 w1 w2 w3 w4,
    candidates sys src dimensions format quality = [(u1, w1); (u2, w2); (u3, w3); (u4, w4)]
    /\ generateSrcSet encodeURIComponent URLSearchParams_toString Number_toString
         imageProxy sys src dimensions format quality
       = (u1 ++ " " ++ Number_toString w1 ++ "w") ++ ", "
         ++ (u2 ++ " " ++ Number_toString w2 ++ "w") ++ ", "
         ++ (u3 ++ " " ++ Number_toString w3 ++ "w") ++ ", "
         ++ (u4 ++ " " ++ Number_toString w4 ++ "w").
Proof. by repeat eexists. Qed.

End SrcsetFacts.

Lemma C5_srcset_four_widths_witness :
  map snd (srcSetCandidates (fun s => s) (fun _ => "") (fun _ => "")
             "https://images.example.com"
             (systemWith None (mkFormatSupport true true true) "4g" false)
             "hero.jpg"
             (mkDimensions (JS.of_Z 800) (JS.of_Z 600) (JS.of_Z 800) (JS.of_Z 600))
             "webp" (JS.of_Z 80))
  = [JS.of_Z 400; JS.of_Z 800; JS.of_Z 1200; JS.of_Z 1600].
Proof.
  refine (proj1 (proj2 (proj2
    (C5_srcset_four_widths (fun s => s) (fun _ => "") (fun _ => "")
       "https://images.example.com" _ "hero.jpg" "webp" (JS.of_Z 80) 800 600 _ _ _ _))));
    reflexivity.
Defined.

(** ** Experiment assignment *)

Section Assignment.

Implicit Types (this : ImageOptimizationABTesting) (ids : list string).

Lemma bucketVariant_elem random cumulative entries variantId :
  bucketVariant random cumulative entries = Some variantId ->
  variantId ∈ map fst entries.
Proof.
  revert cumulative. induction entries as [|[id variant] rest IH]; intros cumulative.
  - discriminate.
  - simpl. destruct (JS.le random _).
    + intros [= ->]. by left.
    + intros H. right. by eapply IH.
Qed.

Lemma to_int32_range (z : Z) : - 2 ^ 31 <= to_int32 z < 2 ^ 31.
Proof. unfold to_int32. pose proof (Z.mod_pos_bound (z + 2 ^ 31) (2 ^ 32)). lia. Qed.

(** The hash is a non-negative value of at most 2^31. *)
Lemma hashString_range (str : string) : 0 <= hashString str <= 2 ^ 31.
Proof.
  unfold hashString.
  assert (- 2 ^ 31 <= fold_left hashStep (list_ascii_of_string str) 0 < 2 ^ 31);
    [|lia].
  generalize (list_ascii_of_string str). intros chars.
  assert (- 2 ^ 31 <= 0 < 2 ^ 31) as H0 by lia. revert H0. generalize 0.
  induction chars as [|c chars IH]; intros hash Hhash; [done|].
  simpl. apply IH. unfold hashStep. rewrite Z.land_diag. apply to_int32_range.
Qed.

(** The bucket value lies in [0, 1). *)
Lemma bucket_range (str : string) :
  exists r : Z, bucket (hashString str) = JS.Fin (r # 10000) /\ 0 <= r < 10000.
Proof.
  exists (Z.rem (hashString str) 10000). split; [done|].
  pose proof (hashString_range str). apply Z.rem_bound_pos; lia.
Qed.

(** [assignToVariant] reads the user identifier and the experiments, and
    nothing else of the framework. *)
Lemma assignToVariant_ext this1 this2 experimentId :
  userId this1 = userId this2 -> experiments this1 = experiments this2 ->
  assignToVariant this1 experimentId = assignToVariant this2 experimentId.
Proof. unfold assignToVariant. by intros -> ->. Qed.

(** C10, as stated, fails for an experiment that is configured with no
    variants: the result is [undefined], neither a variant id of the
    experiment nor [null]. *)
Lemma C10_empty_variants_counterexample :
  let this := mkFramework [("layout", mkExperiment [])] ∅ "user_1_abc" "session_1_abc" in
  prop (experiments this) "layout" = Some (mkExperiment [])
  /\ assignToVariant this "layout" = Undefined.
Proof. by vm_compute. Qed.

(** C10, amended: for every experiment id present in the configuration
    whose experiment has at least one variant, [assignToVariant] returns a
    variant id of that experiment; the bucket value is a non-negative value
    of [0, 1) derived from the hash of userId + experimentId; when it exceeds
    every cumulative weight the result is the first variant; and the result
    is [null] only for an experiment id that is not configured. *)
Theorem C10_assignToVariant_member this experimentId experiment :
  prop (experiments this) experimentId = Some experiment ->
  variants experiment <> [] ->
  let random := bucket (hashString (userId this ++ experimentId)) in
  (exists variantId,
      assignToVariant this experimentId = VariantId variantId
      /\ variantId ∈ map fst (variants experiment))
  /\ (exists r : Z, random = JS.Fin (r # 10000) /\ 0 <= r < 10000)
  /\ (bucketVariant random (JS.of_Z 0) (variants experiment) = None ->
      Some (assignToVariant this experimentId)
      = VariantId <$> head (map fst (variants experiment)))
  /\ (forall other, assignToVariant this other = Null ->
      prop (experiments this) other = None).
Proof.
  intros Hexp Hne random. split; [|split; [|split]].
  - unfold assignToVariant. rewrite Hexp. fold random.
    destruct (bucketVariant _ _ _) as [variantId|] eqn:Hbucket.
    + exists variantId. split; [done|]. by eapply bucketVariant_elem.
    + destruct (variants experiment) as [|[variantId variant] rest]; [done|].
      exists variantId. split; [done|]. by left.
  - apply bucket_range.
  - intros Hnone. unfold assignToVariant. rewrite Hexp. fold random.
    rewrite Hnone. by destruct (variants experiment) as [|[variantId variant] rest].
  - intros other. unfold assignToVariant.
    destruct (prop _ other) as [e|]; [|done].
    destruct (bucketVariant _ _ _); [done|]. by destruct (variants e) as [|[??] ?].
Qed.

Lemma C10_assignToVariant_member_witness :
  exists variantId,
    assignToVariant
      (mkFramework default_experiments ∅ "user_1700000000000_k3j9x0q2a" "session_1_abc")
      "format-preference" = VariantId variantId
    /\ variantId ∈ ["avif-first"; "webp-first"; "smart-detection"].
Proof.
  refine (proj1 (C10_assignToVariant_member
    (mkFramework default_experiments ∅ "user_1700000000000_k3j9x0q2a" "session_1_abc")
    "format-preference"
    (three "avif-first" "webp-first" "smart-detection" (3 # 10) (4 # 10) (3 # 10))
    _ _)); [reflexivity | discriminate].
Defined.

Lemma assignEach_lookup this ids (assignments : gmap string assigned) experimentId :
  assignEach this ids assignments !! experimentId =
    match assignments !! experimentId with
    | Some v => Some v
    | None =>
        if decide (experimentId ∈ ids)
        then Some (assignToVariant this experimentId) else None
    end.
Proof.
  revert assignments. induction ids as [|id rest IH]; intros assignments.
  - cbn [assignEach]. destruct (assignments !! experimentId); [done|].
    case_decide as Hin; [by apply elem_of_nil in Hin|done].
  - cbn [assignEach]. rewrite IH. clear IH.
    destruct (decide (id = experimentId)) as [->|Hne].
    + destruct (assignments !! experimentId) as [v|] eqn:Hlook.
      * by rewrite Hlook.
      * rewrite lookup_insert_eq. case_decide as Hin; [done|].
        exfalso. apply Hin. by left.
    + assert ((match assignments !! id with
               | Some _ => assignments
               | None => <[id := assignToVariant this id]> assignments
               end) !! experimentId = assignments !! experimentId) as ->.
      { destruct (assignments !! id); [done|]. by rewrite lookup_insert_ne. }
      destruct (assignments !! experimentId); [done|].
      repeat case_decide; try done.
      * exfalso. match goal with H : _ ∉ _ :: _ |- _ => apply H end. by right.
      * exfalso. match goal with H : _ ∈ _ :: _ |- _ =>
          apply elem_of_cons in H as [->|?] end; done.
Qed.

(** The user identifier a session ends with is stored, and is not empty. *)
Lemma getUserId_stored env ls :
  let '(userId, ls') := getUserId env ls in
  exists c s, userId = String c s /\ ab_test_user_id ls' = Some userId
              /\ ab_test_assignments ls' = ab_test_assignments ls.
Proof.
  unfold getUserId. destruct (ab_test_user_id ls) as [[|c s]|] eqn:E.
  - by eexists _, _.
  - by exists c, s.
  - by eexists _, _.
Qed.

Lemma loadUserAssignments_fields this ls :
  experiments (loadUserAssignments this ls) = experiments this
  /\ userId (loadUserAssignments this ls) = userId this
  /\ userAssignments (loadUserAssignments this ls) =
       (fromJSON <$> default ∅ (ab_test_assignments ls)) ∪ userAssignments this.
Proof.
  unfold loadUserAssignments. destruct (ab_test_assignments ls); simpl; [done|].
  by rewrite fmap_empty, (left_id_L ∅ (∪)).
Qed.

(** What a session leaves in [userAssignments] for an experiment id. *)
Lemma newFramework_lookup exps env ls experimentId :
  let '(this, ls') := newFramework exps env ls in
  let stored := default ∅ (ab_test_assignments ls) in
  experiments this = exps
  /\ userId this = (getUserId env ls).1
  /\ ab_test_user_id ls' = Some (userId this)
  /\ ab_test_assignments ls' = Some (omap toJSON (userAssignments this))
  /\ userAssignments this !! experimentId =
       match stored !! experimentId with
       | Some j => Some (fromJSON j)
       | None =>
           if decide (experimentId ∈ map fst exps)
           then Some (assignToVariant this experimentId) else None
       end.
Proof.
  unfold newFramework.
  pose proof (getUserId_stored env ls) as Hid.
  destruct (getUserId env ls) as [uid ls0]. destruct Hid as (c & s & -> & Hid & Hassign).
  set (this0 := mkFramework exps ∅ (String c s) (generateSessionId env)).
  destruct (loadUserAssignments_fields this0 ls0) as (Hexps & Huid & Hua).
  unfold assignUserToExperiments, saveUserAssignments. cbn [fst snd].
  cbn [experiments userId userAssignments ab_test_user_id ab_test_assignments].
  rewrite Hexps, Huid. subst this0.
  cbn [experiments userId userAssignments] in *.
  split; [done|]. split; [done|]. split; [done|]. split; [done|].
  rewrite assignEach_lookup, Hua, Hassign.
  rewrite lookup_union, lookup_empty, lookup_fmap.
  destruct (default ∅ (ab_test_assignments ls) !! experimentId); simpl; [done|].
  case_decide; [|done]. f_equal. by apply assignToVariant_ext.
Qed.

Lemma getUserId_nonempty env ls :
  exists c s, (getUserId env ls).1 = String c s.
Proof.
  pose proof (getUserId_stored env ls) as H.
  destruct (getUserId env ls) as [uid ls']. destruct H as (c & s & -> & _).
  by exists c, s.
Qed.

Lemma getUserId_known env ls c s :
  ab_test_user_id ls = Some (String c s) -> getUserId env ls = (String c s, ls).
Proof. unfold getUserId. by intros ->. Qed.

(** C2, as stated, fails for the assignment that drives format and quality
    selection: [getABTestVariant] draws [Math.random()] for each experiment,
    so two runs over the same configuration and weights differ, and no user
    identifier is read. *)
Lemma C2_random_assignment_counterexample :
  (getABTestVariant default_abTesting (fun _ => JS.Fin (1 # 10)))
     ≫= (.!! "format-preference") = Some "avif-first"
  /\ (getABTestVariant default_abTesting (fun _ => JS.Fin (5 # 10)))
       ≫= (.!! "format-preference") = Some "webp-first".
Proof. by vm_compute. Qed.

(** C2, amended: in [ImageOptimizationABTesting], [assignToVariant] is a
    function of the user identifier, the experiment configuration and its
    weights alone; a session that finds a stored identifier computes the same
    assignments whatever its clock and random draws; and a second session
    started from the storage the first one left has the same identifier and
    the same variant for every experiment.  [getABTestVariant] of
    [ImageOptimizationSystem] is outside of this: it draws a random number per
    experiment and stores nothing. *)
Theorem C2_hash_assignment_deterministic :
  (forall this1 this2 experimentId,
     userId this1 = userId this2 -> experiments this1 = experiments this2 ->
     assignToVariant this1 experimentId = assignToVariant this2 experimentId)
  /\ (forall exps env1 env2 ls c s experimentId,
       ab_test_user_id ls = Some (String c s) ->
       userAssignments (newFramework exps env1 ls).1 !! experimentId
       = userAssignments (newFramework exps env2 ls).1 !! experimentId)
  /\ (forall exps env1 env2 ls experimentId,
       experimentId ∈ map fst exps ->
       let '(session1, ls1) := newFramework exps env1 ls in
       let '(session2, ls2) := newFramework exps env2 ls1 in
       userId session2 = userId session1
       /\ userAssignments session2 !! experimentId
          = userAssignments session1 !! experimentId
       /\ getVariant session2 experimentId = getVariant session1 experimentId).
Proof.
  split; [exact assignToVariant_ext|]. split.
  - intros exps env1 env2 ls c s experimentId Hid.
    pose proof (newFramework_lookup exps env1 ls experimentId) as H1.
    pose proof (newFramework_lookup exps env2 ls experimentId) as H2.
    destruct (newFramework exps env1 ls) as [session1 ls1].
    destruct (newFramework exps env2 ls) as [session2 ls2].
    destruct H1 as (He1 & Hu1 & _ & _ & Hua1), H2 as (He2 & Hu2 & _ & _ & Hua2).
    cbn [fst]. rewrite Hua1, Hua2.
    rewrite (getUserId_known _ _ _ _ Hid) in Hu1.
    rewrite (getUserId_known _ _ _ _ Hid) in Hu2. cbn [fst] in Hu1, Hu2.
    destruct (default ∅ (ab_test_assignments ls) !! experimentId); [done|].
    case_decide; [|done]. f_equal. apply assignToVariant_ext; congruence.
  - intros exps env1 env2 ls experimentId Hin.
    pose proof (newFramework_lookup exps env1 ls experimentId) as H1.
    pose proof (getUserId_nonempty env1 ls) as (c & s & Hcs).
    destruct (newFramework exps env1 ls) as [session1 ls1].
    destruct H1 as (He1 & Hu1 & Hid1 & Hstored1 & Hua1).
    pose proof (newFramework_lookup exps env2 ls1 experimentId) as H2.
    destruct (newFramework exps env2 ls1) as [session2 ls2].
    destruct H2 as (He2 & Hu2 & _ & _ & Hua2).
    rewrite Hcs in Hu1. rewrite Hu1 in Hid1.
    rewrite (getUserId_known _ _ _ _ Hid1) in Hu2. cbn [fst] in Hu2.
    assert (userId session2 = userId session1) as Huid by congruence.
    assert (userAssignments session2 !! experimentId
            = userAssignments session1 !! experimentId) as Heq.
    { rewrite decide_True in Hua1 by done. rewrite decide_True in Hua2 by done.
      rewrite Hua2, Hstored1. cbn [default from_option id].
      rewrite lookup_omap, Hua1.
      destruct (default ∅ (ab_test_assignments ls) !! experimentId) as [j|];
        cbn [mbind option_bind]; [by destruct j|].
      destruct (assignToVariant session1 experimentId) eqn:Hassign;
        cbn [toJSON fromJSON]; try done.
      rewrite <- Hassign. f_equal. apply assignToVariant_ext; congruence. }
    split; [done|]. split; [done|]. unfold getVariant. by rewrite Heq.
Qed.

Lemma C2_hash_assignment_deterministic_witness :
  let env1 := mkEnv 1700000000000 "k3j9x0q2a" 1700000000001 "zzzzzzzzz" in
  let env2 := mkEnv 1800000000000 "a1b2c3d4e" 1800000000001 "yyyyyyyyy" in
  let '(session1, ls1) := newFramework default_experiments env1 (mkLocalStorage None None) in
  let '(session2, ls2) := newFramework default_experiments env2 ls1 in
  userId session2 = userId session1
  /\ userAssignments session2 !! "format-preference"
     = userAssignments session1 !! "format-preference"
  /\ getVariant session2 "format-preference" = getVariant session1 "format-preference".
Proof.
  intros env1 env2.
  apply (proj2 (proj2 C2_hash_assignment_deterministic)
           default_experiments env1 env2 (mkLocalStorage None None)
           "format-preference").
  by left.
Defined.

End Assignment.

(** ** Cache eviction *)

Section Eviction.

Implicit Types (cache : Cache) (data removed kept : list Item) (item : Item).

#[local] Instance itemOf_inj : Inj (=) (=) itemOf.
Proof. intros [k1 r1] [k2 r2] [=]. by simplify_eq. Qed.

Lemma prop_elem cache key response :
  NoDup (map fst cache) -> (key, response) ∈ cache ->
  prop cache key = Some response.
Proof.
  induction cache as [|[k r] rest IH]; intros Hnodup Hin.
  - by apply elem_of_nil in Hin.
  - apply NoDup_cons in Hnodup as [Hk Hrest]. cbn [prop].
    apply elem_of_cons in Hin as [[= -> ->]|Hin].
    + by rewrite String.eqb_refl.
    + destruct (String.eqb_spec k key) as [->|Hne]; [|by apply IH].
      exfalso. apply Hk. change key with (key, response).1.
      apply (list_elem_of_fmap_2 fst _ (key, response)), Hin.
Qed.

(** With one entry per key, every key matches its own response, so the
    filter of [manageCacheSize] drops nothing and the indices line up. *)
Lemma responseData_items cache :
  NoDup (map fst cache) ->
  responseData cache = sortByCachedAt (map itemOf cache).
Proof.
  intros Hnodup. unfold responseData. f_equal.
  assert (map (cache_match cache) (map fst cache) = map (fun e => Some e.2) cache)
    as ->.
  { rewrite map_map. apply map_ext_in. intros [k r] Hin. cbn.
    apply prop_elem; [done|]. by apply list_elem_of_In. }
  assert (forall l : Cache, omap id (map (fun e => Some e.2) l) = map snd l) as ->.
  { induction l as [|e l IH]; [done|]. cbn. by f_equal. }
  unfold Cache in *. apply list_eq. intros i.
  rewrite list_lookup_imap.
  change (map snd cache) with (snd <$> cache).
  change (map itemOf cache) with (itemOf <$> cache).
  rewrite !list_lookup_fmap.
  destruct (cache !! i) as [[k r]|] eqn:Hi; [|done]. cbn.
  unfold toItem, itemOf. cbn.
  change (map fst cache) with (fst <$> cache).
  by rewrite list_lookup_fmap, Hi.
Qed.

Lemma insertByCachedAt_perm item data : insertByCachedAt item data ≡ₚ item :: data.
Proof.
  induction data as [|y rest IH]; [done|]. cbn.
  destruct (cachedAt item <=? cachedAt y); [done|].
  rewrite IH. apply Permutation_swap.
Qed.

Lemma sortByCachedAt_perm data : sortByCachedAt data ≡ₚ data.
Proof.
  induction data as [|x rest IH]; [done|]. cbn.
  by rewrite insertByCachedAt_perm, IH.
Qed.

Lemma insertByCachedAt_sorted item data :
  StronglySorted olderOrEqual data ->
  StronglySorted olderOrEqual (insertByCachedAt item data).
Proof.
  induction data as [|y rest IH]; intros Hsorted; cbn.
  - repeat constructor.
  - apply StronglySorted_cons in Hsorted as [Hy Hrest].
    destruct (cachedAt item <=? cachedAt y) eqn:Hle.
    + apply Z.leb_le in Hle. constructor.
      * by apply StronglySorted_cons.
      * constructor; [done|].
        eapply Forall_impl; [exact Hy|]. unfold olderOrEqual. intros; lia.
    + apply Z.leb_gt in Hle. constructor; [by apply IH|].
      rewrite insertByCachedAt_perm. constructor; [|done].
      unfold olderOrEqual. lia.
Qed.

Lemma sortByCachedAt_sorted data : StronglySorted olderOrEqual (sortByCachedAt data).
Proof.
  induction data as [|x rest IH]; cbn; [constructor|].
  by apply insertByCachedAt_sorted.
Qed.

Lemma sumSizes_perm data data' : data ≡ₚ data' -> sumSizes data = sumSizes data'.
Proof.
  induction 1 as [|x l l' _ IH|x y l|l l' l'' _ IH1 _ IH2];
    unfold sumSizes in *; cbn [foldr] in *; lia.
Qed.

Lemma sumSizes_app data data' :
  sumSizes (data ++ data')%list = sumSizes data + sumSizes data'.
Proof.
  induction data as [|x rest IH]; unfold sumSizes in *; cbn [foldr app] in *; lia.
Qed.

Lemma currentSize_sum data (start : Z) :
  foldl (fun sum item => sum + item_size item) start data = start + sumSizes data.
Proof.
  revert start. induction data as [|x rest IH]; intros start;
    unfold sumSizes in *; cbn [foldl foldr]; [lia|].
  rewrite IH. lia.
Qed.

Lemma totalSize_items cache : totalSize cache = sumSizes (map itemOf cache).
Proof.
  induction cache as [|e rest IH]; [done|].
  unfold totalSize, sumSizes in *. cbn [foldr map]. by rewrite IH.
Qed.

(** The loop deletes a prefix of the sorted items and stops as soon as the
    running size is within the budget: the last item it deletes was deleted
    over budget. *)
Lemma evictLoop_prefix (maxSize : Z) data (currentSize : Z) cache :
  exists removed kept,
    data = (removed ++ kept)%list
    /\ evictLoop maxSize currentSize data cache = foldl deleteItem cache removed
    /\ (kept = [] \/ currentSize - sumSizes removed <= maxSize)
    /\ (currentSize <= maxSize -> removed = [])
    /\ (removed = []
        \/ exists before last, removed = (before ++ [last])%list
                               /\ maxSize < currentSize - sumSizes before).
Proof.
  revert currentSize cache.
  induction data as [|oldest rest IH]; intros currentSize cache.
  - exists [], []. cbn. auto 10.
  - cbn [evictLoop]. rewrite Z.gtb_ltb.
    destruct (Z.ltb_spec maxSize currentSize) as [Hover|Hwithin].
    + destruct (IH (currentSize - item_size oldest) (deleteItem cache oldest))
        as (removed & kept & -> & Hloop & Hstop & _ & Hlast).
      exists (oldest :: removed), kept. split; [done|]. split; [done|].
      split; [|split; [lia|right]].
      * destruct Hstop as [->|Hle]; [by left|right].
        unfold sumSizes in *. cbn [foldr]. lia.
      * destruct Hlast as [->|(before & last & -> & Hbefore)].
        -- exists [], oldest. split; [done|]. cbn. lia.
        -- exists (oldest :: before), last. split; [done|].
           unfold sumSizes in *. cbn [foldr]. lia.
    + exists [], (oldest :: rest). split; [done|]. split; [done|].
      split; [right; cbn; lia|split; [done|by left]].
Qed.

Lemma filter_all {A : Type} (P : A -> Prop) `{!forall x, Decision (P x)} (l : list A) :
  (forall x, P x) -> filter P l = l.
Proof.
  intros HP. induction l as [|x l IH]; [done|].
  rewrite filter_cons_True by done. by rewrite IH.
Qed.

Lemma deleteItems_filter cache removed :
  foldl deleteItem cache removed
  = filter (fun entry => entry.1 ∉ omap item_request removed) cache.
Proof.
  revert cache. induction removed as [|item rest IH]; intros cache; cbn [foldl].
  - symmetry. apply filter_all. intros e. apply not_elem_of_nil.
  - rewrite IH. unfold deleteItem. cbn [omap list_omap].
    destruct (item_request item) as [key|]; [|done].
    unfold cache_delete, Cache in *. etrans; [apply list_filter_filter|].
    apply list_filter_iff. intros e. rewrite not_elem_of_cons. tauto.
Qed.

Lemma maxSizeOf_pos (cacheName : string) : 0 < maxSizeOf cacheName.
Proof.
  unfold maxSizeOf, MAX_CACHE_SIZE. cbn [prop].
  repeat (destruct (String.eqb _ _); [by vm_compute|]). by vm_compute.
Qed.

Lemma entry_unique cache (e e' : string * Response) :
  NoDup (map fst cache) -> e ∈ cache -> e' ∈ cache -> e.1 = e'.1 -> e = e'.
Proof.
  intros Hnodup He He' Hkey. destruct e as [k r], e' as [k' r']. cbn in Hkey. subst k'.
  pose proof (prop_elem _ _ _ Hnodup He) as H1.
  pose proof (prop_elem _ _ _ Hnodup He') as H2. congruence.
Qed.

(** The entries whose key was deleted are exactly the removed items. *)
Lemma removed_keys cache data removed kept (e : string * Response) :
  NoDup (map fst cache) -> data ≡ₚ map itemOf cache ->
  data = (removed ++ kept)%list -> e ∈ cache ->
  e.1 ∈ omap item_request removed <-> itemOf e ∈ removed.
Proof.
  intros Hnodup Hperm -> He. rewrite list_elem_of_omap. split.
  - intros (x & Hx & Hreq).
    assert (x ∈ map itemOf cache) as Hxc.
    { rewrite <- Hperm. apply elem_of_app. by left. }
    apply (list_elem_of_fmap_1 itemOf) in Hxc as (e' & -> & He').
    cbn in Hreq. injection Hreq as Hkey.
    by rewrite <- (entry_unique cache e' e Hnodup He' He Hkey).
  - intros Hin. by exists (itemOf e).
Qed.

(** What stays in the cache is what the loop kept. *)
Lemma kept_items cache data removed kept :
  NoDup (map fst cache) -> data ≡ₚ map itemOf cache ->
  data = (removed ++ kept)%list ->
  map itemOf (filter (fun entry => entry.1 ∉ omap item_request removed) cache) ≡ₚ kept.
Proof.
  intros Hnodup Hperm Hdata.
  assert (NoDup cache) as Hcache by by apply (NoDup_fmap_1 fst).
  assert (NoDup data) as Hnd.
  { rewrite Hperm. by apply (NoDup_fmap_2 itemOf). }
  rewrite Hdata in Hnd. apply NoDup_app in Hnd as (Hndr & Hdisj & Hndk).
  apply NoDup_Permutation; [|done|].
  { apply (NoDup_fmap_2 itemOf). by apply NoDup_filter. }
  intros x. split.
  - intros Hx. apply (list_elem_of_fmap_1 itemOf) in Hx as (e & -> & He).
    apply list_elem_of_filter in He as [Hkey He].
    assert (itemOf e ∈ (removed ++ kept)%list) as Hin.
    { rewrite <- Hdata, Hperm. by apply (list_elem_of_fmap_2 itemOf). }
    apply elem_of_app in Hin as [Hr|Hk]; [|done].
    exfalso. apply Hkey. by eapply removed_keys.
  - intros Hx.
    assert (x ∈ map itemOf cache) as Hxc.
    { rewrite <- Hperm, Hdata. apply elem_of_app. by right. }
    apply (list_elem_of_fmap_1 itemOf) in Hxc as (e & -> & He).
    apply (list_elem_of_fmap_2 itemOf). apply list_elem_of_filter. split; [|done].
    intros Hkey. eapply removed_keys in Hkey; [|done..].
    by eapply Hdisj.
Qed.

(** C4: after [manageCacheSize] the total size of the partition is at most
    its budget, the pass only removes entries, every removed entry has a
    cachedAt no greater than that of every retained entry, a partition
    already within its budget is left as it is, and the pass stops as soon as
    the budget is met: putting back one of the removed entries would exceed
    it.  The budgets of the four partitions are those of [MAX_CACHE_SIZE]. *)
Theorem C4_eviction_within_budget (caches : gmap string Cache) (cacheName : string) :
  NoDup (map fst (caches_open caches cacheName)) ->
  let cache := caches_open caches cacheName in
  let cache' := caches_open (manageCacheSize caches cacheName) cacheName in
  totalSize cache' <= maxSizeOf cacheName
  /\ (forall entry, entry ∈ cache' -> entry ∈ cache)
  /\ (forall evicted retained : string * Response,
        evicted ∈ cache -> evicted ∉ cache' -> retained ∈ cache' ->
        cachedAtOf (evicted.2) <= cachedAtOf (retained.2))
  /\ (totalSize cache <= maxSizeOf cacheName -> cache' = cache)
  /\ (cache' <> cache ->
      exists evicted : string * Response,
        evicted ∈ cache /\ (evicted ∉ cache')
        /\ maxSizeOf cacheName < totalSize cache' + sizeOf (evicted.2))
  /\ maxSizeOf CACHE_NAMES.images = 50 * 1024 * 1024
  /\ maxSizeOf CACHE_NAMES.optimized = 100 * 1024 * 1024
  /\ maxSizeOf CACHE_NAMES.static = 10 * 1024 * 1024
  /\ maxSizeOf CACHE_NAMES.dynamic = 25 * 1024 * 1024.
Proof.
  intros Hnodup cache cache'.
  assert (cache' = evictLoop (maxSizeOf cacheName)
                     (foldl (fun sum item => sum + item_size item) 0 (responseData cache))
                     (responseData cache) cache) as Hcache'.
  { subst cache'. unfold manageCacheSize, caches_open at 1.
    by rewrite lookup_insert_eq. }
  rewrite responseData_items in Hcache' by done.
  set (data := sortByCachedAt (map itemOf cache)) in *.
  assert (data ≡ₚ map itemOf cache) as Hperm by apply sortByCachedAt_perm.
  assert (StronglySorted olderOrEqual data) as Hsorted by apply sortByCachedAt_sorted.
  rewrite currentSize_sum, Z.add_0_l in Hcache'.
  assert (sumSizes data = totalSize cache) as Hsum.
  { by rewrite totalSize_items, (sumSizes_perm _ _ Hperm). }
  destruct (evictLoop_prefix (maxSizeOf cacheName) data (sumSizes data) cache)
    as (removed & kept & Hdata & Hloop & Hstop & Hnone & Hlast).
  rewrite Hloop, deleteItems_filter in Hcache'.
  pose proof (kept_items cache data removed kept Hnodup Hperm Hdata) as Hkept.
  rewrite <- Hcache' in Hkept.
  assert (forall e, e ∈ cache' -> itemOf e ∈ kept) as Hretained.
  { intros e He. rewrite <- Hkept. by apply (list_elem_of_fmap_2 itemOf). }
  split; [|split; [|split; [|split; [|split]]]].
  - rewrite totalSize_items, (sumSizes_perm _ _ Hkept).
    destruct Hstop as [->|Hle].
    + pose proof (maxSizeOf_pos cacheName). cbn. lia.
    + rewrite Hdata, sumSizes_app in Hle. lia.
  - intros entry. rewrite Hcache', list_elem_of_filter. tauto.
  - intros e_removed e_retained Hin Hout Hret.
    assert (itemOf e_removed ∈ removed) as Hr.
    { eapply removed_keys; [done..|].
      destruct (decide (e_removed.1 ∈ omap item_request removed)) as [|Hnot]; [done|].
      exfalso. apply Hout. rewrite Hcache'. by apply list_elem_of_filter. }
    rewrite Hdata in Hsorted.
    exact (StronglySorted_app_1_elem_of _ _ _ _ _ Hsorted Hr (Hretained _ Hret)).
  - intros Hwithin. rewrite Hcache', Hnone by lia.
    apply filter_all. intros e. apply not_elem_of_nil.
  - intros Hchanged.
    destruct Hlast as [->|(before & last & Hremoved & Hover)].
    { exfalso. apply Hchanged. rewrite Hcache'.
      apply filter_all. intros e. apply not_elem_of_nil. }
    assert (last ∈ removed) as Hlast.
    { rewrite Hremoved. apply elem_of_app. right. by left. }
    assert (last ∈ map itemOf cache) as Hin.
    { rewrite <- Hperm, Hdata. apply elem_of_app. by left. }
    apply (list_elem_of_fmap_1 itemOf) in Hin as (evicted & -> & Hin).
    exists evicted. split; [done|]. split.
    + rewrite Hcache', list_elem_of_filter. intros [Hkey _]. apply Hkey.
      by eapply removed_keys.
    + rewrite totalSize_items, (sumSizes_perm _ _ Hkept).
      assert (sumSizes data = sumSizes before + item_size (itemOf evicted) + sumSizes kept)
        as Hsplit.
      { rewrite Hdata, Hremoved, !sumSizes_app. unfold sumSizes at 2.
        cbn [foldr]. lia. }
      cbn [itemOf item_size] in Hsplit. lia.
  - by vm_compute.
Qed.

End Eviction.

(** ** Reading back a time stamp *)

Lemma digit_of_pretty_N_char (d : N) :
  (d < 10)%N -> digit_of 10 (pretty_N_char d) = Some (Z.of_N d).
Proof.
  intros Hd.
  assert (d = 0 \/ d = 1 \/ d = 2 \/ d = 3 \/ d = 4 \/ d = 5 \/ d = 6 \/ d = 7
          \/ d = 8 \/ d = 9)%N as Hcases by lia.
  repeat (destruct Hcases as [->|Hcases]; [done|]). by subst.
Qed.

Lemma parseDigits_pretty_N_go (x : N) (s : string) :
  (0 < x)%N ->
  parseDigits 10 None (pretty_N_go x s) = parseDigits 10 (Some (Z.of_N x)) s.
Proof.
  revert s. induction (N.lt_wf_0 x) as [x _ IH]; intros s Hx.
  rewrite pretty_N_go_step by done.
  pose proof (N.mod_lt x 10 ltac:(lia)) as Hmod.
  pose proof (N.div_mod x 10 ltac:(lia)) as Hdiv.
  destruct (decide (x `div` 10 = 0)%N) as [Hzero|Hpos].
  - rewrite Hzero, pretty_N_go_0. cbn [parseDigits].
    rewrite digit_of_pretty_N_char by done. cbn [default from_option id].
    do 2 f_equal. lia.
  - rewrite IH; [|apply N.div_lt; lia|lia]. cbn [parseDigits].
    rewrite digit_of_pretty_N_char by done. cbn [default from_option id].
    do 2 f_equal. lia.
Qed.

Lemma pretty_N_go_head (x : N) (s : string) :
  (0 < x)%N -> exists c rest, pretty_N_go x s = String c rest /\ nonzeroDigit c.
Proof.
  revert s. induction (N.lt_wf_0 x) as [x _ IH]; intros s Hx.
  rewrite pretty_N_go_step by done.
  destruct (decide (x `div` 10 = 0)%N) as [Hzero|Hpos].
  - rewrite Hzero, pretty_N_go_0. eexists _, _. split; [done|].
    pose proof (N.div_mod x 10 ltac:(lia)) as Hdiv.
    pose proof (N.mod_lt x 10 ltac:(lia)) as Hmod.
    assert (x `mod` 10 = 1 \/ x `mod` 10 = 2 \/ x `mod` 10 = 3 \/ x `mod` 10 = 4
            \/ x `mod` 10 = 5 \/ x `mod` 10 = 6 \/ x `mod` 10 = 7 \/ x `mod` 10 = 8
            \/ x `mod` 10 = 9)%N as Hcases by lia.
    unfold nonzeroDigit.
    repeat (destruct Hcases as [Hc|Hcases];
            [rewrite Hc; apply (bool_decide_unpack _); by vm_compute|]).
    rewrite Hcases. apply (bool_decide_unpack _). by vm_compute.
  - apply IH; [apply N.div_lt; lia|by apply N.neq_0_lt_0].
Qed.

Lemma parseInt_nonzeroDigit (c : ascii) (rest : string) :
  nonzeroDigit c ->
  parseInt (String c rest) = (fun n => 1 * n) <$> parseDigits 10 None (String c rest)
  /\ parseInt (String "-" (String c rest))
     = (fun n => -1 * n) <$> parseDigits 10 None (String c rest).
Proof.
  unfold nonzeroDigit. intros Hc.
  repeat (apply elem_of_cons in Hc as [->|Hc]; [split; reflexivity|]).
  by apply elem_of_nil in Hc.
Qed.

(** [parseInt] reads back the decimal numeral [toString] prints. *)
Lemma parseInt_pretty (z : Z) : parseInt (pretty z) = Some z.
Proof.
  destruct z as [|p|p]; [done| |].
  - unfold pretty, pretty_Z, pretty, pretty_positive, pretty, pretty_N.
    rewrite decide_False by done.
    destruct (pretty_N_go_head (N.pos p) "") as (c & rest & Heq & Hc); [lia|].
    rewrite Heq, (proj1 (parseInt_nonzeroDigit c rest Hc)), <- Heq.
    by rewrite parseDigits_pretty_N_go by lia.
  - unfold pretty, pretty_Z, pretty, pretty_positive, pretty, pretty_N.
    rewrite decide_False by done.
    destruct (pretty_N_go_head (N.pos p) "") as (c & rest & Heq & Hc); [lia|].
    rewrite Heq. change ("-" +:+ String c rest) with (String "-" (String c rest)).
    rewrite (proj2 (parseInt_nonzeroDigit c rest Hc)), <- Heq.
    by rewrite parseDigits_pretty_N_go by lia.
Qed.

(** ** Expiry of cached responses *)

Section Expiry.

Variable URL_pathname : string -> option string.
Variable generateCacheKey : Request -> string.

Implicit Types (response : Response) (request : Request) (caches : gmap string Cache).






End Expiry.


(** ** Capability detection *)

(** C8, as stated, fails for the service worker: with no client to ask,
    [getFormatSupport] assumes webp, not jpg only, and the best format is
    webp. *)
Lemma C8_service_worker_fallback_counterexample :
  @getFormatSupport unit [] [] = Some (mkFormatSupport false true true)
  /\ @getFormatSupport unit [] [] <> Some (mkFormatSupport false false true)
  /\ @getBestFormat unit [] [] = Some "webp".
Proof. by vm_compute. Qed.

(** C8, amended: detection does not reject and falls back to defaults.  A
    missing connection API yields effectiveType 4g, downlink 10, rtt 100 and
    saveData false; a format whose probe errors or rejects is reported
    unsupported and jpg is always reported supported, so a main thread that
    cannot determine support assumes jpg only; the service worker, when there
    is no client to ask, assumes avif unsupported and webp and jpg
    supported, and its best format is then webp. *)
Theorem C8_detection_defaults :
  (forall window deviceMemory hardwareConcurrency,
     connection (detectDeviceCapabilities window
                   (mkNavigator None None None deviceMemory hardwareConcurrency))
     = mkConnection "4g" (JS.of_Z 10) (JS.of_Z 100) false)
  /\ (forall decode,
       detectFormatSupport decode =
         mkFormatSupport
           (match decode avifTestImage with Loads => true | _ => false end)
           (match decode webpTestImage with Loads => true | _ => false end)
           true)
  /\ detectFormatSupport (fun _ => Rejects) = mkFormatSupport false false true
  /\ getSupportedFormats None = mkFormatSupport false false true
  /\ (forall (Client : Type) (messages : list Message),
       @getFormatSupport Client [] messages = Some (mkFormatSupport false true true)
       /\ @getBestFormat Client [] messages = Some "webp").
Proof.
  split; [done|]. split; [|done].
  intros decode. unfold detectFormatSupport, createTestImage.
  by destruct (decode avifTestImage), (decode webpTestImage).
Qed.

(** With a client to ask and no answer, the promise of [getFormatSupport]
    stays pending: no fallback applies. *)
Lemma getFormatSupport_pending {Client : Type} (client : Client) (clients : list Client) :
  getFormatSupport (client :: clients) [] = None.
Proof. reflexivity. Qed.

(** ** The eviction pass on a concrete partition *)

Example manageCacheSize_sample :
  caches_open (manageCacheSize sampleCaches CACHE_NAMES.images) CACHE_NAMES.images
  = [ ("https://cdn.example.com/a.jpg", sampleResponse "31457280" "3000");
      ("https://cdn.example.com/c.jpg", sampleResponse "10485760" "2000") ].
Proof. by vm_compute. Qed.

Lemma C4_eviction_within_budget_witness :
  totalSize (caches_open (manageCacheSize sampleCaches CACHE_NAMES.images)
                         CACHE_NAMES.images)
  <= maxSizeOf CACHE_NAMES.images.
Proof.
  apply (C4_eviction_within_budget sampleCaches CACHE_NAMES.images).
  apply (bool_decide_unpack _). by vm_compute.
Defined.

(** * Further properties of the code *)

(** ** Service worker: housekeeping *)

Section Housekeeping.

Implicit Types (caches : gmap string Cache) (cache : Cache).

Lemma cleanup_fold (names : list string) caches (name : string) :
  foldl (fun caches cacheName => delete cacheName caches) caches names !! name
  = if decide (name ∈ names) then None else caches !! name.
Proof.
  revert caches. induction names as [|n rest IH]; intros caches; cbn [foldl].
  - case_decide as Hin; [by apply elem_of_nil in Hin|done].
  - rewrite IH. destruct (decide (name ∈ rest)) as [Hrest|Hrest].
    + rewrite decide_True; [done|by right].
    + destruct (decide (n = name)) as [->|Hne].
      * rewrite lookup_delete_eq. rewrite decide_True; [done|by left].
      * rewrite lookup_delete_ne by done. rewrite decide_False; [done|].
        intros Hin. apply elem_of_cons in Hin as [->|Hin]; done.
Qed.

(** X1: [cleanupOldCaches] keeps the four caches of the current version
    with their contents and deletes every other cache that
    [caches.keys()] lists. *)
Theorem X1_cleanupOldCaches_keeps_current (cacheNames : list string) caches
    (name : string) :
  (is_Some (caches !! name) -> name ∈ cacheNames) ->
  cleanupOldCaches cacheNames caches !! name
  = if decide (name ∈ currentCaches) then caches !! name else None.
Proof.
  intros Hlisted. unfold cleanupOldCaches. rewrite cleanup_fold.
  destruct (decide (name ∈ currentCaches)) as [Hcur|Hold].
  - rewrite decide_False; [done|]. rewrite list_elem_of_filter. tauto.
  - case_decide as Hin; [done|].
    destruct (caches !! name) eqn:Hlook; [|done].
    exfalso. apply Hin. apply list_elem_of_filter. split; [done|].
    apply Hlisted. by eexists.
Qed.

Lemma X1_cleanupOldCaches_keeps_current_witness :
  let caches : gmap string Cache :=
    {[ "images-v1.1.0" := []; CACHE_NAMES.images := []; "static-v1.0.0" := [] ]} in
  cleanupOldCaches ["images-v1.1.0"; CACHE_NAMES.images; "static-v1.0.0"] caches
    !! "images-v1.1.0" = None.
Proof.
  intros caches.
  apply (X1_cleanupOldCaches_keeps_current
           ["images-v1.1.0"; CACHE_NAMES.images; "static-v1.0.0"] caches "images-v1.1.0").
  intros _. by left.
Defined.

Lemma deleteKeys_filter cache (keys : list string) :
  foldl cache_delete cache keys = filter (fun entry => entry.1 ∉ keys) cache.
Proof.
  revert cache. induction keys as [|key rest IH]; intros cache; cbn [foldl].
  - symmetry. apply filter_all. intros e. apply not_elem_of_nil.
  - rewrite IH. unfold cache_delete, Cache in *. etrans; [apply list_filter_filter|].
    apply list_filter_iff. intros e. rewrite not_elem_of_cons. tauto.
Qed.

Lemma filter_none {A : Type} (P : A -> Prop) `{!forall x, Decision (P x)} (l : list A) :
  (forall x, x ∈ l -> ~ P x) -> filter P l = [].
Proof.
  induction l as [|x l IH]; intros HP; [done|].
  rewrite filter_cons_False by (apply HP; by left).
  apply IH. intros y Hy. apply HP. by right.
Qed.

Lemma deleteAllKeys_empty cache : deleteAllKeys cache = [].
Proof.
  unfold deleteAllKeys. rewrite deleteKeys_filter.
  apply filter_none. intros e He Hkey. apply Hkey.
  by apply (list_elem_of_fmap_2 fst).
Qed.

(** X2: [clearImageCache] leaves the image cache and the optimized cache
    empty and touches no other cache. *)
Theorem X2_clearImageCache_empties caches :
  caches_open (clearImageCache caches) CACHE_NAMES.images = []
  /\ caches_open (clearImageCache caches) CACHE_NAMES.optimized = []
  /\ (forall name, name <> CACHE_NAMES.images -> name <> CACHE_NAMES.optimized ->
      clearImageCache caches !! name = caches !! name).
Proof.
  unfold clearImageCache, caches_open. split; [|split].
  - rewrite lookup_insert_ne by done. rewrite lookup_insert_eq.
    cbn. apply deleteAllKeys_empty.
  - rewrite lookup_insert_eq. cbn. apply deleteAllKeys_empty.
  - intros name H1 H2. by rewrite !lookup_insert_ne.
Qed.

Lemma X2_clearImageCache_empties_witness :
  clearImageCache sampleCaches !! CACHE_NAMES.static = sampleCaches !! CACHE_NAMES.static.
Proof.
  apply (proj2 (proj2 (X2_clearImageCache_empties sampleCaches))); by vm_compute.
Defined.

End Housekeeping.

(** ** Service worker: fallbacks and the fetch handler *)

Section Fallbacks.

Implicit Types (caches : gmap string Cache) (request : Request).

Lemma firstMatch_Some (allCaches : list string) caches (key : string) response :
  firstMatch allCaches caches key = Some response ->
  exists cacheName, cacheName ∈ allCaches
    /\ cache_match (caches_open caches cacheName) key = Some response.
Proof.
  induction allCaches as [|name rest IH]; [done|]. cbn [firstMatch].
  destruct (cache_match (caches_open caches name) key) as [r|] eqn:Hmatch.
  - intros [= ->]. exists name. split; [by left|done].
  - intros H. destruct (IH H) as (n & Hn & Hm). exists n. split; [by right|done].
Qed.

Lemma firstMatch_None (allCaches : list string) caches (key : string) :
  firstMatch allCaches caches key = None <->
  forall cacheName, cacheName ∈ allCaches ->
    cache_match (caches_open caches cacheName) key = None.
Proof.
  induction allCaches as [|name rest IH]; cbn [firstMatch].
  - split; [|done]. intros _ n Hn. by apply elem_of_nil in Hn.
  - destruct (cache_match (caches_open caches name) key) as [r|] eqn:Hmatch.
    + split; [done|]. intros H. specialize (H name ltac:(by left)). congruence.
    + rewrite IH. split.
      * intros H n Hn. apply elem_of_cons in Hn as [->|Hn]; [done|by apply H].
      * intros H n Hn. apply H. by right.
Qed.

(** X3: the two fallbacks never fail.  When one of the listed caches
    holds an entry for the request URL they answer with a cached entry,
    whatever its age; otherwise [handleImageFallback] answers with the SVG
    placeholder (status 200, content type image/svg+xml, not to be cached)
    and [handleFallback] with a 503. *)
Theorem X3_fallbacks_serve_cached (allCaches : list string) caches request :
  ((exists cacheName, cacheName ∈ allCaches
      /\ is_Some (cache_match (caches_open caches cacheName) (req_url request))) ->
   handleImageFallback allCaches caches request = handleFallback allCaches caches request
   /\ exists cacheName, cacheName ∈ allCaches
        /\ cache_match (caches_open caches cacheName) (req_url request)
           = Some (handleFallback allCaches caches request))
  /\ ((forall cacheName, cacheName ∈ allCaches ->
         cache_match (caches_open caches cacheName) (req_url request) = None) ->
      let placeholder := handleImageFallback allCaches caches request in
      status placeholder = 200
      /\ resp_headers placeholder !! "content-type" = Some "image/svg+xml"
      /\ resp_headers placeholder !! "cache-control" = Some "no-cache"
      /\ body placeholder = generatePlaceholderSVG
      /\ status (handleFallback allCaches caches request) = 503).
Proof.
  unfold handleImageFallback, handleFallback. split.
  - intros (name & Hname & [r Hr]).
    destruct (firstMatch allCaches caches (req_url request)) as [found|] eqn:Hfirst.
    + split; [done|]. by apply firstMatch_Some.
    + rewrite firstMatch_None in Hfirst. rewrite (Hfirst name Hname) in Hr. done.
  - intros Hnone. apply firstMatch_None in Hnone. rewrite Hnone. cbn.
    repeat split; by vm_compute.
Qed.

Lemma X3_fallbacks_serve_cached_witness :
  status (handleFallback [CACHE_NAMES.images] sampleCaches
            (mkRequest "https://cdn.example.com/missing.jpg" (Some ∅))) = 503.
Proof.
  apply (proj2 (X3_fallbacks_serve_cached [CACHE_NAMES.images] sampleCaches
                  (mkRequest "https://cdn.example.com/missing.jpg" (Some ∅)))).
  intros name Hname. apply list_elem_of_singleton in Hname as ->. by vm_compute.
Defined.

End Fallbacks.

(** ** Service worker: the optimized request *)

Lemma prop_filter_ne {A : Type} (entries : list (string * A)) (name other : string) :
  name <> other ->
  prop (filter (fun entry => entry.1 <> name) entries) other = prop entries other.
Proof.
  intros Hne. induction entries as [|[k v] rest IH]; [done|].
  destruct (decide (k = name)) as [->|Hk].
  - rewrite filter_cons_False by (cbn; tauto). cbn [prop].
    destruct (String.eqb_spec name other); [done|]. exact IH.
  - rewrite filter_cons_True by done. cbn [prop]. by rewrite IH.
Qed.

Section OptimizeRequestFacts.

Variable URL_pathname : string -> option string.
Variable URL_hasParam : string -> string -> bool.

Implicit Types (params : list (string * ParamValue)) (name : string).

Lemma prop_params_set_eq params name value :
  prop (params_set params name value) name = Some value.
Proof.
  induction params as [|[k v] rest IH]; cbn [params_set prop].
  - by rewrite String.eqb_refl.
  - destruct (String.eqb_spec k name) as [->|Hne]; cbn [prop].
    + by rewrite String.eqb_refl.
    + destruct (String.eqb_spec k name); [done|]. exact IH.
Qed.

Lemma prop_params_set_ne params name other value :
  name <> other ->
  prop (params_set params name value) other = prop params other.
Proof.
  intros Hne. induction params as [|[k v] rest IH]; cbn [params_set prop].
  - by destruct (String.eqb_spec name other).
  - destruct (String.eqb_spec k name) as [->|Hk]; cbn [prop].
    + destruct (String.eqb_spec name other); [done|]. by apply prop_filter_ne.
    + by rewrite IH.
Qed.

Lemma params_set_keys params name value (key : string) :
  key ∈ map fst (params_set params name value) -> key = name \/ key ∈ map fst params.
Proof.
  induction params as [|[k v] rest IH]; cbn [params_set map fst].
  - intros Hin. left. by apply list_elem_of_singleton in Hin.
  - destruct (String.eqb_spec k name) as [->|Hk]; cbn [map fst].
    + intros Hin. apply elem_of_cons in Hin as [->|Hin]; [by left|].
      right. right. apply (list_elem_of_fmap_1 fst) in Hin as (e & -> & He).
      apply list_elem_of_filter in He as [_ He]. by apply (list_elem_of_fmap_2 fst).
    + intros Hin. apply elem_of_cons in Hin as [->|Hin]; [right; by left|].
      destruct (IH Hin); [by left|right; by right].
Qed.

Lemma params_set_NoDup params name value :
  NoDup (map fst params) -> NoDup (map fst (params_set params name value)).
Proof.
  induction params as [|[k v] rest IH]; cbn [params_set map fst]; intros Hnd.
  - apply NoDup_singleton.
  - apply NoDup_cons in Hnd as [Hk Hrest].
    destruct (String.eqb_spec k name) as [->|Hne]; cbn [map fst]; apply NoDup_cons.
    + split.
      * intros Hin. apply (list_elem_of_fmap_1 fst) in Hin as (e & Heq & He).
        apply list_elem_of_filter in He as [Hne _]. by apply Hne.
      * clear IH Hk. induction rest as [|[k v'] rest IH]; [constructor|].
        cbn [map fst] in Hrest. apply NoDup_cons in Hrest as [Hk Hrest].
        destruct (decide (k = name)) as [->|Hkn].
        -- rewrite filter_cons_False by (cbn; tauto). by apply IH.
        -- rewrite filter_cons_True by done. cbn [map fst]. apply NoDup_cons.
           split; [|by apply IH].
           intros Hin. apply Hk.
           apply (list_elem_of_fmap_1 fst) in Hin as (e & -> & He).
           apply list_elem_of_filter in He as [_ He].
           by apply (list_elem_of_fmap_2 fst).
    + split; [|by apply IH].
      intros Hin. apply params_set_keys in Hin as [->|Hin]; done.
Qed.

(** X4: whatever the worker's state, when [optimizeRequest] builds a new
    request its quality parameter is set once and lies between 30 and 80
    (35 on slow-2g, 42 on 2g), the compression parameter is always set, and a
    device-pixel-ratio parameter, when present, is above 1 and at most 2. *)
Theorem X4_optimizeRequest_quality_bounds {Client : Type} (this : ImageOptimizationSW)
    (clients : list Client) (messages : list Message) (request : Request)
    (params : list (string * ParamValue)) :
  optimizeRequest URL_pathname URL_hasParam this clients messages request
    = Return (Some (NewRequest params)) ->
  (exists q : Q,
      prop params "q" = Some (PNum (JS.Fin q)) /\ (30 <= q <= 80)%Q
      /\ (connectionIs this "slow-2g" = true -> (q == 35)%Q)
      /\ (connectionIs this "slow-2g" = false -> connectionIs this "2g" = true ->
          (q == 42)%Q))
  /\ NoDup (map fst params)
  /\ prop params "auto" = Some (PStr "compress,format")
  /\ (forall d, prop params "dpr" = Some d ->
      exists n, d = PNum n /\ JS.lt (JS.of_Z 1) n = true /\ JS.le n (JS.of_Z 2) = true).
Proof.
  unfold optimizeRequest.
  destruct (URL_pathname _); [|discriminate].
  destruct (URL_hasParam _ _); [discriminate|].
  unfold getBestFormat. destruct (getFormatSupport clients messages) as [fs|];
    [|discriminate]. cbn [mbind option_bind].
  intros Hparams. injection Hparams as <-.
  set (formatParams := match (if avif fs then _ else _) with "" => _ | _ => _ end).
  assert (NoDup (map fst formatParams) /\ prop formatParams "q" = None
          /\ prop formatParams "auto" = None /\ prop formatParams "dpr" = None)
    as (Hnd & Hq & Hauto & Hdpr).
  { subst formatParams. destruct (avif fs), (webp fs); cbn;
      (split; [by apply (bool_decide_unpack _); vm_compute|done]). }
  clearbody formatParams.
  set (quality := getOptimalQuality this).
  set (dprParams := match sw_deviceCapabilities this with Some _ => _ | None => _ end).
  assert (NoDup (map fst dprParams)
          /\ prop dprParams "q" = Some (PNum quality)
          /\ prop dprParams "auto" = Some (PStr "compress,format")
          /\ (forall d, prop dprParams "dpr" = Some d ->
              exists n, d = PNum n /\ JS.lt (JS.of_Z 1) n = true
                        /\ JS.le n (JS.of_Z 2) = true))
    as (Hnd' & Hq' & Hauto' & Hdpr').
  { assert (NoDup (map fst (params_set (params_set formatParams "q" (PNum quality))
                                       "auto" (PStr "compress,format"))))
      as Hnd3 by by do 2 apply params_set_NoDup.
    subst dprParams.
    destruct (sw_deviceCapabilities this) as [capabilities|];
      [match goal with
       | |- context [if ?c then params_set _ "dpr" _ else _] => destruct c eqn:Hlt
       end|].
    - change (JS.lt (JS.of_Z 1) (sw_dpr capabilities) = true) in Hlt.
      split; [by apply params_set_NoDup|].
      rewrite !prop_params_set_eq.
      rewrite (prop_params_set_ne _ "dpr" "q"), (prop_params_set_ne _ "auto" "q") by done.
      rewrite (prop_params_set_ne _ "dpr" "auto") by done.
      rewrite !prop_params_set_eq. split; [done|]. split; [done|].
      intros d [= <-]. eexists. split; [done|].
      destruct (sw_dpr capabilities) as [|[]|d]; try done. unfold JS.min.
      destruct (JS.le (JS.Fin d) (JS.of_Z 2)) eqn:Hle; [done|by vm_compute].
    - split; [done|]. rewrite (prop_params_set_ne _ "auto" "q") by done.
      rewrite !prop_params_set_eq. split; [done|]. split; [done|].
      rewrite !prop_params_set_ne by done. by rewrite Hdpr.
    - split; [done|]. rewrite (prop_params_set_ne _ "auto" "q") by done.
      rewrite !prop_params_set_eq. split; [done|]. split; [done|].
      rewrite !prop_params_set_ne by done. by rewrite Hdpr. }
  clearbody dprParams. subst quality. unfold getOptimalQuality in *.
  destruct (connectionIs this "slow-2g"), (connectionIs this "2g"),
           (connectionIs this "3g"), (connectionIs this "4g"); cbn [orb];
    rewrite ?prop_params_set_eq, ?prop_params_set_ne by done;
    (split;
     [eexists; split; [first [reflexivity | exact Hq']|];
      split; [by vm_compute|split; intros; (discriminate || by vm_compute)]|]);
    (split; [first [by apply params_set_NoDup | done]|]);
    (split; [done|]); exact Hdpr'.
Qed.

End OptimizeRequestFacts.

Lemma X4_optimizeRequest_quality_bounds_witness :
  exists q : Q,
    prop [("f", PStr "webp"); ("q", PNum (JS.of_Z 80)); ("auto", PStr "compress,format")]
         "q" = Some (PNum (JS.Fin q))
    /\ (30 <= q <= 80)%Q
    /\ (connectionIs (detectCapabilities newSW) "slow-2g" = true -> (q == 35)%Q)
    /\ (connectionIs (detectCapabilities newSW) "slow-2g" = false ->
        connectionIs (detectCapabilities newSW) "2g" = true -> (q == 42)%Q).
Proof.
  refine (proj1 (X4_optimizeRequest_quality_bounds Some (fun _ _ => false)
    (detectCapabilities newSW) (@nil unit) []
    (mkRequest "https://cdn.example.com/a.jpg" (Some ∅)) _ _)).
  reflexivity.
Defined.

(** ** Service worker: the network path *)

Section NetworkFacts.

Variable URL_pathname : string -> option string.
Variable URL_hasParam : string -> string -> bool.
Variable URL_hostname : string -> string.
Variable URL_setHostname : string -> string -> string.
Variable URL_setSearch : string -> list (string * ParamValue) -> string.
Variable generateCacheKey : Request -> string.
Variables fetch fetch' : Request -> option Z -> FetchOutcome.

Implicit Types (caches : gmap string Cache) (request : Request)
  (this : ImageOptimizationSW) (messages : list Message) (allCaches : list string).

Lemma tryFallbackDomains_ext (now : Z) request (domains : list string) caches :
  (forall r, fetch r None = fetch' r None) ->
  tryFallbackDomains URL_pathname URL_setHostname fetch now request domains caches
  = tryFallbackDomains URL_pathname URL_setHostname fetch' now request domains caches.
Proof.
  intros Hfetch. revert caches.
  induction domains as [|domain rest IH]; intros caches; [done|].
  cbn [tryFallbackDomains]. rewrite Hfetch.
  destruct (fetch' _ None) as [response|]; [|apply IH].
  destruct (ok response); [|apply IH].
  destruct (cacheResponse _ _ _ _ _ _); [done|apply IH].
Qed.

(** X5: [fetchImageWithStrategy] runs [detectCapabilities] first, which
    overwrites whatever capabilities the page reported: its result does not
    depend on the worker's stored state, and the only abort delay it ever
    passes to [fetch] is 2000 ms, the one of a 4g connection. *)
Theorem X5_fetch_ignores_reported_capabilities {Client : Type} (now : Z) allCaches
    (clients : list Client) messages this this' caches request :
  (forall r, fetch r (Some 2000) = fetch' r (Some 2000)) ->
  (forall r, fetch r None = fetch' r None) ->
  fetchImageWithStrategy URL_pathname URL_hasParam URL_hostname URL_setHostname
    URL_setSearch fetch now allCaches clients messages this caches request
  = fetchImageWithStrategy URL_pathname URL_hasParam URL_hostname URL_setHostname
      URL_setSearch fetch' now allCaches clients messages this' caches request.
Proof.
  intros Hsignal Hplain. unfold fetchImageWithStrategy, tryFallbackCDN.
  destruct (URL_pathname (req_url request)); [|done].
  change (detectCapabilities this') with (detectCapabilities this).
  change (getTimeoutForConnection (detectCapabilities this)) with 2000.
  rewrite !(tryFallbackDomains_ext _ _ _ _ Hplain).
  destruct (optimizeRequest _ _ _ _ _ _) as [[optimized|]|]; try done.
  by rewrite Hsignal.
Qed.

(** X6: for a request with a valid URL [fetchImageWithStrategy] never
    throws.  When every fetch fails it answers with [handleImageFallback]: a
    cached entry for the URL if a cache has one, else the placeholder; the
    caches are left as they were.  The handler stays pending exactly when the
    URL is not marked optimized and the format query to the page is never
    answered. *)
Theorem X6_network_failure_degrades {Client : Type} (now : Z) allCaches
    (clients : list Client) messages this caches request (pathname : string) :
  URL_pathname (req_url request) = Some pathname ->
  let result :=
    fetchImageWithStrategy URL_pathname URL_hasParam URL_hostname URL_setHostname
      URL_setSearch fetch now allCaches clients messages this caches request in
  (forall error, result <> Throw error)
  /\ (result = Return None <->
      URL_hasParam (req_url request) "optimized" = false
      /\ getFormatSupport clients messages = None)
  /\ ((forall r signal, fetch r signal = NetworkError) ->
      result <> Return None ->
      result = Return (Some (mkHandled (handleImageFallback allCaches caches request)
                                       caches (detectCapabilities this)))).
Proof.
  intros Hurl result. subst result.
  unfold fetchImageWithStrategy, tryFallbackCDN, optimizeRequest, getBestFormat.
  rewrite Hurl. cbn [cbind].
  set (fallback := tryFallbackDomains _ _ _ _ _ _ _).
  assert ((forall r signal, fetch r signal = NetworkError) -> fallback = (None, caches))
    as Hfail.
  { intros Hdown. subst fallback.
    match goal with
    | |- tryFallbackDomains _ _ _ _ _ ?d _ = _ => generalize d
    end. intros domains.
    induction domains as [|domain rest IH]; [done|].
    cbn [tryFallbackDomains]. by rewrite Hdown. }
  destruct (URL_hasParam (req_url request) "optimized").
  - split; [|split].
    + intros error. by repeat case_match.
    + split; [|intros [? _]; done]. intros H. exfalso. by repeat case_match.
    + intros Hdown _. rewrite Hdown, (Hfail Hdown). done.
  - destruct (getFormatSupport clients messages) as [fs|]; cbn [mbind option_bind].
    + split; [|split].
      * intros error. by repeat case_match.
      * split; [|intros [_ ?]; done]. intros H. exfalso. by repeat case_match.
      * intros Hdown _. rewrite Hdown, (Hfail Hdown). done.
    + split; [done|]. split; [done|]. intros _ Hpending. by exfalso.
Qed.

End NetworkFacts.

Lemma X5_fetch_ignores_reported_capabilities_witness :
  let slow := updateDeviceCapabilities newSW
                (mkSWCapabilities "mobile" (JS.of_Z 3) "slow-2g" (JS.of_Z 1) (JS.of_Z 2000)) in
  let request := mkRequest "https://cdn.example.com/a.jpg" (Some ∅) in
  let fetch := fun (_ : Request) (signal : option Z) =>
                 if decide (signal = Some 8000) then Responds (sampleResponse "1" "1")
                 else NetworkError in
  fetchImageWithStrategy Some (fun _ _ => false) (fun u => u) (fun u _ => u)
    (fun u _ => u) fetch 0 [] (@nil unit) [] slow ∅ request
  = fetchImageWithStrategy Some (fun _ _ => false) (fun u => u) (fun u _ => u)
      (fun u _ => u) (fun _ _ => NetworkError) 0 [] (@nil unit) [] newSW ∅ request.
Proof.
  intros slow request fetch.
  apply X5_fetch_ignores_reported_capabilities; reflexivity.
Defined.

Lemma X6_network_failure_degrades_witness :
  let request := mkRequest "https://cdn.example.com/a.jpg" (Some ∅) in
  fetchImageWithStrategy Some (fun _ _ => false) (fun u => u) (fun u _ => u)
    (fun u _ => u) (fun _ _ => NetworkError) 0 [CACHE_NAMES.images] (@nil unit) []
    newSW sampleCaches request
  = Return (Some (mkHandled (handleImageFallback [CACHE_NAMES.images] sampleCaches request)
                            sampleCaches (detectCapabilities newSW))).
Proof.
  intros request.
  refine (proj2 (proj2 (X6_network_failure_degrades Some (fun _ _ => false)
    (fun u => u) (fun u _ => u) (fun u _ => u) (fun _ _ => NetworkError)
    0 [CACHE_NAMES.images] (@nil unit) [] newSW sampleCaches request
    (req_url request) eq_refl)) _ _); [reflexivity|discriminate].
Defined.

(** ** Service worker: what is cached is never fetched again *)

Section HandleFetchFacts.

Variable URL_pathname : string -> option string.
Variable URL_hasParam : string -> string -> bool.
Variable URL_hostname : string -> string.
Variable URL_setHostname : string -> string -> string.
Variable URL_setSearch : string -> list (string * ParamValue) -> string.
Variable generateCacheKey : Request -> string.
Variable fetch : Request -> option Z -> FetchOutcome.

Implicit Types (caches : gmap string Cache) (request : Request)
  (this : ImageOptimizationSW) (messages : list Message) (allCaches : list string).




End HandleFetchFacts.


(** ** Service worker: reading back what was stored *)

Lemma prop_app {A : Type} (l1 l2 : list (string * A)) (key : string) :
  prop (l1 ++ l2)%list key
  = match prop l1 key with Some v => Some v | None => prop l2 key end.
Proof.
  induction l1 as [|[k v] rest IH]; [done|]. cbn [app prop].
  by destruct (String.eqb k key).
Qed.

Lemma prop_filter_eq {A : Type} (entries : list (string * A)) (key : string) :
  prop (filter (fun entry => entry.1 <> key) entries) key = None.
Proof.
  induction entries as [|[k v] rest IH]; [done|].
  destruct (decide (k = key)) as [->|Hk].
  - by rewrite filter_cons_False by (cbn; tauto).
  - rewrite filter_cons_True by done. cbn [prop].
    by destruct (String.eqb_spec k key).
Qed.

Section ReadBack.

Variable URL_pathname : string -> option string.

Implicit Types (caches : gmap string Cache) (cache : Cache) (request : Request).

Lemma cache_put_match cache (key : string) (response : Response) :
  cache_match (cache_put cache key response) key = Some response
  /\ (forall other, other <> key ->
      cache_match (cache_put cache key response) other = cache_match cache other).
Proof.
  unfold cache_match, cache_put, cache_delete, Cache in *. split.
  - rewrite prop_app, (prop_filter_eq cache key). cbn [prop].
    by rewrite String.eqb_refl.
  - intros other Hne. rewrite prop_app, (prop_filter_ne cache key other) by done.
    destruct (prop cache other); [done|]. cbn [prop].
    by destruct (String.eqb_spec key other).
Qed.

Lemma cache_put_NoDup cache (key : string) (response : Response) :
  NoDup (map fst cache) -> NoDup (map fst (cache_put cache key response)).
Proof.
  intros Hnd. unfold cache_put, cache_delete, Cache in *.
  rewrite map_app. cbn [map fst].
  apply NoDup_app. split; [|split; [|apply NoDup_singleton]].
  - induction cache as [|[k v] rest IH]; [constructor|].
    cbn [map fst] in Hnd. apply NoDup_cons in Hnd as [Hk Hrest].
    destruct (decide (k = key)) as [->|Hkn].
    + rewrite filter_cons_False by (cbn; intros Hc; by apply Hc). by apply IH.
    + rewrite filter_cons_True by done. cbn [map fst]. apply NoDup_cons.
      split; [|by apply IH]. intros Hin. apply Hk.
      apply (list_elem_of_fmap_1 fst) in Hin as (e & -> & He).
      apply list_elem_of_filter in He as [_ He]. by apply (list_elem_of_fmap_2 fst).
  - intros x Hx Hkey. apply list_elem_of_singleton in Hkey as ->.
    apply (list_elem_of_fmap_1 fst) in Hx as (e & Heq & He).
    apply list_elem_of_filter in He as [Hne _]. by apply Hne.
Qed.

(** A partition within its budget goes through [manageCacheSize]
    unchanged. *)
Lemma manageCacheSize_within caches (cacheName : string) :
  NoDup (map fst (caches_open caches cacheName)) ->
  totalSize (caches_open caches cacheName) <= maxSizeOf cacheName ->
  manageCacheSize caches cacheName
  = <[cacheName := caches_open caches cacheName]> caches.
Proof.
  intros Hnd Hwithin. unfold manageCacheSize. f_equal.
  rewrite responseData_items by done.
  set (data := sortByCachedAt _).
  rewrite currentSize_sum, Z.add_0_l.
  destruct (evictLoop_prefix (maxSizeOf cacheName) data (sumSizes data)
              (caches_open caches cacheName))
    as (removed & kept & _ & -> & _ & Hnone & _).
  rewrite Hnone; [done|].
  subst data. rewrite (sumSizes_perm _ _ (sortByCachedAt_perm _)).
  by rewrite <- totalSize_items.
Qed.

(** X8: a successful response stored by [cacheResponse] in a partition
    that stays within its budget can be read back under the request URL,
    stamped with the time of the store, from the image cache for an image
    request and from the dynamic cache otherwise; every other entry of the
    partition and every other partition is unchanged. *)
Theorem X8_cacheResponse_read_back (now : Z) caches request (response : Response)
    (isImage : bool) :
  ok response = true ->
  isImageRequest URL_pathname request = Return isImage ->
  let target := if isImage then CACHE_NAMES.images else CACHE_NAMES.dynamic in
  let stamped := responseWithTimestamp now response in
  NoDup (map fst (caches_open caches target)) ->
  totalSize (cache_put (caches_open caches target) (req_url request) stamped)
    <= maxSizeOf target ->
  exists caches',
    cacheResponse URL_pathname now caches request (Some response) None = Return caches'
    /\ cache_match (caches_open caches' target) (req_url request) = Some stamped
    /\ parseIntHeader (resp_headers stamped) "sw-cached-at" = Some now
    /\ (forall other, other <> req_url request ->
        cache_match (caches_open caches' target) other
        = cache_match (caches_open caches target) other)
    /\ (forall name, name <> target -> caches' !! name = caches !! name).
Proof.
  intros Hok Himage target stamped Hnd Hwithin.
  unfold cacheResponse. rewrite Hok, Himage. cbn [negb cbind].
  fold target. fold stamped.
  set (stored := <[target := cache_put (caches_open caches target) (req_url request)
                                stamped]> caches).
  assert (caches_open stored target
          = cache_put (caches_open caches target) (req_url request) stamped) as Hopen.
  { unfold caches_open at 1, stored. by rewrite lookup_insert_eq. }
  eexists. split; [reflexivity|].
  rewrite manageCacheSize_within; rewrite ?Hopen; [|by apply cache_put_NoDup|done].
  assert (caches_open (<[target := cache_put (caches_open caches target)
                                     (req_url request) stamped]> stored) target
          = cache_put (caches_open caches target) (req_url request) stamped) as ->.
  { unfold caches_open at 1. by rewrite lookup_insert_eq. }
  split; [apply cache_put_match|]. split.
  { unfold parseIntHeader, stamped, responseWithTimestamp. cbn [resp_headers].
    rewrite lookup_insert_eq. apply parseInt_pretty. }
  split; [apply cache_put_match|].
  intros name Hname. unfold stored. by rewrite !lookup_insert_ne.
Qed.

End ReadBack.

Lemma X8_cacheResponse_read_back_witness :
  let request := mkRequest "https://cdn.example.com/d.jpg" (Some ∅) in
  let response := mkResponse "https://cdn.example.com/d.jpg" 200 "OK"
                             {["content-length" := "2048"]} "" in
  exists caches',
    cacheResponse Some 1700000000000 ∅ request (Some response) None = Return caches'
    /\ cache_match (caches_open caches' CACHE_NAMES.images) (req_url request)
       = Some (responseWithTimestamp 1700000000000 response).
Proof.
  intros request response.
  destruct (X8_cacheResponse_read_back Some 1700000000000 ∅ request response true)
    as (caches' & Hstore & Hmatch & _).
  - reflexivity.
  - reflexivity.
  - constructor.
  - by vm_compute.
  - exists caches'. split; [exact Hstore|exact Hmatch].
Defined.

(** ** Format selection over detected support *)

(** X9: whatever the experiment variant, the connection and the outcome of
    the two decoding tests, [selectOptimalFormat] run on the support that
    [detectFormatSupport] reports returns one of avif, webp and jpg, and it
    returns avif or webp only if the corresponding test image decoded; jpg
    is never tested. *)
Theorem X9_selected_format_was_detected (decode : string -> ImageOutcome)
    (variants : option (gmap string string)) (capabilities : DeviceCapabilities) :
  let sys := mkSystem variants (detectFormatSupport decode) capabilities in
  (selectOptimalFormat sys = "avif" /\ decode avifTestImage = Loads)
  \/ (selectOptimalFormat sys = "webp" /\ decode webpTestImage = Loads)
  \/ selectOptimalFormat sys = "jpg".
Proof.
  intros sys. unfold selectOptimalFormat.
  change (formatSupport sys) with (detectFormatSupport decode).
  unfold detectFormatSupport, createTestImage. cbn [avif webp].
  destruct (String.eqb (formatVariant sys) "avif-first");
    [|destruct (String.eqb (formatVariant sys) "webp-first");
      [|destruct (saveData (connection (deviceCapabilities sys)));
        [by right; right|]]];
    destruct (decode avifTestImage) eqn:Havif;
    destruct (decode webpTestImage) eqn:Hwebp; cbn [andb];
    try destruct (negb _); auto.
Qed.

(** ** Random experiment assignment *)

Lemma le_NaN_r (n : JS.number) : JS.le n JS.NaN = false.
Proof. by destruct n as [|[]|]. Qed.

Lemma pickVariant_NaN config (random : JS.number) (i : nat) (rest : list string) :
  pickVariant config random JS.NaN i rest = None.
Proof.
  revert i. induction rest as [|v rest IH]; intros i; [done|].
  cbn [pickVariant]. cbn [JS.add]. rewrite le_NaN_r. apply IH.
Qed.

Lemma pickVariant_elem config (random cumulative : JS.number) (i : nat)
    (rest : list string) (v : string) :
  pickVariant config random cumulative i rest = Some v ->
  exists j : nat, rest !! j = Some v /\ is_Some (allocation config !! (i + j)%nat).
Proof.
  revert cumulative i. induction rest as [|v' rest IH]; intros cumulative i; [done|].
  cbn [pickVariant]. unfold allocation_at.
  destruct (allocation config !! i) as [a|] eqn:Hi; cbn [default from_option id].
  - destruct (JS.le random (JS.add cumulative a)).
    + intros [= ->]. exists 0%nat. rewrite Nat.add_0_r. by split; [|eexists].
    + intros Hpick. apply IH in Hpick as (j & Hj & Ha). exists (S j).
      split; [done|]. by replace (i + S j)%nat with (S i + j)%nat by lia.
  - replace (JS.add cumulative JS.NaN) with JS.NaN by (by destruct cumulative).
    rewrite le_NaN_r. by rewrite pickVariant_NaN.
Qed.

Lemma getABTestVariant_from_elem (exps : list (string * ABExperiment))
    (random : nat -> JS.number) (k : nat) (acc : gmap string string)
    (experiment v : string) :
  getABTestVariant_from exps random k acc !! experiment = Some v ->
  acc !! experiment = Some v
  \/ exists config (j : nat),
       (experiment, config) ∈ exps /\ ab_variants config !! j = Some v
       /\ is_Some (allocation config !! j).
Proof.
  revert k acc. induction exps as [|[name config] rest IH]; intros k acc; [by left|].
  cbn [getABTestVariant_from]. intros Hget. apply IH in Hget as [Hacc|Hrest].
  - destruct (pickVariant config (random k) (JS.of_Z 0) 0 (ab_variants config))
      as [picked|] eqn:Hpick; [|by left].
    destruct (decide (name = experiment)) as [->|Hne].
    + rewrite lookup_insert_eq in Hacc. injection Hacc as ->.
      apply pickVariant_elem in Hpick as (j & Hj & Ha).
      right. exists config, j. split; [apply list_elem_of_here|done].
    + rewrite lookup_insert_ne in Hacc by done. by left.
  - destruct Hrest as (config' & j & Hin & Hj & Ha). right. exists config', j.
    split; [by apply list_elem_of_further|done].
Qed.

(** X10: [getABTestVariant] returns [null] exactly when A/B testing is
    disabled; otherwise every variant it assigns to an experiment, whatever
    [Math.random] draws, is a variant configured for an experiment of that
    name and has an allocation at its index: a variant without an allocation
    is never chosen. *)
Theorem X10_getABTestVariant_configured (abTesting : ABTesting)
    (random : nat -> JS.number) :
  match getABTestVariant abTesting random with
  | None => ab_enabled abTesting = false
  | Some variants =>
      ab_enabled abTesting = true
      /\ forall experiment v, variants !! experiment = Some v ->
         exists config (j : nat),
           (experiment, config) ∈ ab_experiments abTesting
           /\ ab_variants config !! j = Some v
           /\ is_Some (allocation config !! j)
  end.
Proof.
  unfold getABTestVariant. destruct (ab_enabled abTesting); cbn [negb]; [|done].
  split; [done|]. intros experiment v Hget.
  apply getABTestVariant_from_elem in Hget as [Hempty|Hfound]; [|done].
  by rewrite lookup_empty in Hempty.
Qed.

Lemma X10_getABTestVariant_configured_witness :
  match getABTestVariant default_abTesting (fun _ => JS.Fin (1 # 10)) with
  | None => ab_enabled default_abTesting = false
  | Some variants =>
      ab_enabled default_abTesting = true
      /\ forall experiment v, variants !! experiment = Some v ->
         exists config (j : nat),
           (experiment, config) ∈ ab_experiments default_abTesting
           /\ ab_variants config !! j = Some v
           /\ is_Some (allocation config !! j)
  end.
Proof.
  exact (X10_getABTestVariant_configured default_abTesting (fun _ => JS.Fin (1 # 10))).
Defined.

(** ** Closed form of [hashString] *)

Lemma to_int32_congr (a b : Z) : (a - b) mod 2 ^ 32 = 0 -> to_int32 a = to_int32 b.
Proof.
  intros Hmod. unfold to_int32. f_equal.
  apply Z.mod_divide in Hmod as [k Hk]; [|lia].
  replace (a + 2 ^ 31) with (b + 2 ^ 31 + k * 2 ^ 32) by lia.
  apply Z_mod_plus_full.
Qed.

Lemma to_int32_idem (z : Z) : to_int32 (to_int32 z) = to_int32 z.
Proof.
  apply to_int32_congr. unfold to_int32.
  replace ((z + 2 ^ 31) mod 2 ^ 32 - 2 ^ 31 - z)
    with ((z + 2 ^ 31) mod 2 ^ 32 - (z + 2 ^ 31)) by lia.
  rewrite (Z.mod_eq (z + 2 ^ 31) (2 ^ 32)) by lia.
  replace (z + 2 ^ 31 - 2 ^ 32 * ((z + 2 ^ 31) `div` 2 ^ 32) - (z + 2 ^ 31))
    with (- ((z + 2 ^ 31) `div` 2 ^ 32) * 2 ^ 32) by lia.
  apply Z_mod_mult.
Qed.

Lemma to_int32_diff (z : Z) : exists k : Z, to_int32 z = z + k * 2 ^ 32.
Proof.
  exists (- ((z + 2 ^ 31) `div` 2 ^ 32)). unfold to_int32.
  rewrite (Z.mod_eq (z + 2 ^ 31) (2 ^ 32)) by lia. lia.
Qed.

Lemma hashStep_to_int32 (hash : Z) (c : ascii) :
  hashStep (to_int32 hash) c = to_int32 (31 * hash + charCodeAt c).
Proof.
  unfold hashStep. rewrite Z.land_diag, to_int32_idem, Z.shiftl_mul_pow2 by lia.
  apply to_int32_congr.
  destruct (to_int32_diff hash) as [k ->].
  destruct (to_int32_diff ((hash + k * 2 ^ 32) * 2 ^ 5)) as [k' ->].
  replace ((hash + k * 2 ^ 32) * 2 ^ 5 + k' * 2 ^ 32 - (hash + k * 2 ^ 32)
           + charCodeAt c - (31 * hash + charCodeAt c))
    with ((31 * k + k') * 2 ^ 32) by lia.
  apply Z_mod_mult.
Qed.

Lemma hash_loop (chars : list ascii) (hash : Z) :
  fold_left hashStep chars (to_int32 hash)
  = to_int32 (fold_left (fun hash c => 31 * hash + charCodeAt c) chars hash).
Proof.
  revert hash. induction chars as [|c rest IH]; intros hash; [done|].
  cbn [fold_left]. by rewrite hashStep_to_int32, IH.
Qed.

(** X11: the shift-subtract-add loop of [hashString], wrapped to 32 bits at
    every step, computes the base-31 polynomial of the character codes
    wrapped once to a signed 32-bit integer, in absolute value; strings whose
    polynomials agree modulo 2^32 therefore hash alike. *)
Theorem X11_hashString_closed_form (str : string) :
  hashString str = Z.abs (to_int32 (polynomial31 str))
  /\ forall other : string,
       (polynomial31 str - polynomial31 other) mod 2 ^ 32 = 0 ->
       hashString other = hashString str.
Proof.
  assert (forall s, hashString s = Z.abs (to_int32 (polynomial31 s))) as Hclosed.
  { intros s. unfold hashString, polynomial31. f_equal.
    change 0 with (to_int32 0) at 1. apply hash_loop. }
  split; [apply Hclosed|].
  intros other Hmod. rewrite !Hclosed. f_equal. symmetry. by apply to_int32_congr.
Qed.

Lemma X11_hashString_closed_form_witness :
  hashString "BB" = hashString "Aa".
Proof.
  apply (proj2 (X11_hashString_closed_form "Aa") "BB"). reflexivity.
Defined.

(** ** Dimensions of the optimized image *)

Lemma Qfloor_half (n : Z) : Qfloor (inject_Z n + (1 # 2)) = n.
Proof.
  unfold Qfloor, Qplus, inject_Z. cbn [Qnum Qden].
  change (Z.pos (1 * 2)) with 2. symmetry. apply Z.div_unique with (r := 1); lia.
Qed.

Lemma round_upper (q : Q) (n : Z) :
  (q <= inject_Z n)%Q -> Qfloor (q + (1 # 2)) <= n.
Proof.
  intros Hq. rewrite <- (Qfloor_half n). apply Qfloor_resp_le.
  by apply Qplus_le_l.
Qed.

Lemma round_lower (q : Q) (n : Z) :
  (inject_Z n <= q)%Q -> n <= Qfloor (q + (1 # 2)).
Proof.
  intros Hq. rewrite <- (Qfloor_Z n) at 1. apply Qfloor_resp_le.
  apply Qle_trans with q; [done|].
  rewrite <- (Qplus_0_r q) at 1. by apply Qplus_le_r.
Qed.

Lemma Qle_bool_true (p q : Q) : Qle_bool p q = true <-> (p <= q)%Q.
Proof. apply Qle_bool_iff. Qed.

Lemma Qle_bool_false (p q : Q) : Qle_bool p q = false <-> (q < p)%Q.
Proof.
  split.
  - intros Hb. apply Qnot_le_lt. intros Hle.
    apply Qle_bool_iff in Hle. congruence.
  - intros Hlt. destruct (Qle_bool p q) eqn:Hb; [|done].
    apply Qle_bool_iff in Hb. by apply Qlt_not_le in Hlt.
Qed.

(** Scaling a non-negative integer by a factor between 1 and 2 and
    rounding. *)
Lemma scale_up (n : Z) (f : Q) :
  0 <= n -> (1 <= f)%Q -> (f <= 2)%Q ->
  n <= Qfloor (inject_Z n * f + (1 # 2)) <= 2 * n.
Proof.
  intros Hn Hlo Hhi.
  assert (0 <= inject_Z n)%Q as Hq by (change 0%Q with (inject_Z 0); by rewrite <- Zle_Qle).
  split.
  - apply round_lower. nra.
  - apply round_upper. rewrite inject_Z_mult. change (inject_Z 2) with 2%Q. nra.
Qed.

(** Scaling a non-negative integer by a factor between 0 and 1 and
    rounding. *)
Lemma scale_down (n : Z) (f : Q) :
  0 <= n -> (0 <= f)%Q -> (f <= 1)%Q ->
  0 <= Qfloor (inject_Z n * f + (1 # 2)) <= n.
Proof.
  intros Hn Hlo Hhi.
  assert (0 <= inject_Z n)%Q as Hq by (change 0%Q with (inject_Z 0); by rewrite <- Zle_Qle).
  split.
  - apply round_lower. change (inject_Z 0) with 0%Q. nra.
  - apply round_upper. nra.
Qed.

Lemma adjustForPixelRatio_bounds (capabilities : DeviceCapabilities) (w h : Z) :
  0 <= w -> 0 <= h ->
  exists W H : Z,
    adjustForPixelRatio capabilities (JS.of_Z w) (JS.of_Z h) = (JS.of_Z W, JS.of_Z H)
    /\ w <= W <= 2 * w /\ h <= H <= 2 * h
    /\ (saveData (connection capabilities) = true -> W = w /\ H = h).
Proof.
  intros Hw Hh. unfold adjustForPixelRatio.
  destruct (saveData (connection capabilities)) eqn:Hsave.
  { rewrite andb_false_r. exists w, h. repeat split; lia. }
  rewrite andb_true_r.
  destruct (JS.lt (JS.of_Z 1) (devicePixelRatio capabilities)) eqn:Hlt;
    [|exists w, h; repeat split; (lia || done)].
  assert (exists f : Q, JS.min (devicePixelRatio capabilities) (JS.of_Z 2) = JS.Fin f
                        /\ (1 <= f)%Q /\ (f <= 2)%Q) as (f & -> & Hlo & Hhi).
  { destruct (devicePixelRatio capabilities) as [|s|d]; [done| |].
    - destruct s; [done|]. exists 2%Q. repeat split; done.
    - cbn [JS.lt JS.of_Z] in Hlt. apply negb_true_iff, Qle_bool_false in Hlt.
      change (inject_Z 1) with 1%Q in Hlt.
      unfold JS.min, JS.of_Z. cbn [JS.le].
      destruct (Qle_bool d (inject_Z 2)) eqn:Hle.
      + apply Qle_bool_true in Hle. change (inject_Z 2) with 2%Q in Hle.
        exists d. repeat split; [lra|done].
      + exists 2%Q. repeat split; done. }
  exists (Qfloor (inject_Z w * f + (1 # 2))), (Qfloor (inject_Z h * f + (1 # 2))).
  split; [done|]. split; [by apply scale_up|]. split; [by apply scale_up|done].
Qed.

Lemma constrainToViewport_bounds (capabilities : DeviceCapabilities) (W H : Z) :
  0 <= W -> 0 <= H ->
  (deviceType capabilities = "mobile" ->
   JS.le (JS.of_Z 0) (vp_width (viewport capabilities)) = true) ->
  exists W' H' : Z,
    constrainToViewport capabilities (JS.of_Z W) (JS.of_Z H) = (JS.of_Z W', JS.of_Z H')
    /\ 0 <= W' <= W /\ 0 <= H' <= H
    /\ (deviceType capabilities = "mobile" ->
        JS.le (JS.of_Z W')
              (JS.add (JS.mul (vp_width (viewport capabilities)) 0.9) 0.5) = true).
Proof.
  intros HW HH Hviewport. unfold constrainToViewport.
  destruct (String.eqb_spec (deviceType capabilities) "mobile") as [Hmobile|Hother];
    [|exists W, H; repeat split; (lia || done)].
  specialize (Hviewport Hmobile).
  destruct (vp_width (viewport capabilities)) as [|s|v].
  - by vm_compute in Hviewport.
  - destruct s; [by vm_compute in Hviewport|].
    exists W, H. repeat split; (lia || done).
  - cbn [JS.le JS.of_Z] in Hviewport. apply Qle_bool_true in Hviewport.
    change (inject_Z 0) with 0%Q in Hviewport.
    cbn [JS.mul JS.lt JS.of_Z JS.add].
    set (maxWidth := (v * (9 # 10))%Q).
    assert (0 <= maxWidth)%Q as Hmax by (unfold maxWidth; lra).
    destruct (Qle_bool (inject_Z W) maxWidth) eqn:Hle; cbn [negb].
    + apply Qle_bool_true in Hle. exists W, H.
      split; [done|]. split; [lia|]. split; [lia|]. intros _.
      apply Qle_bool_true. lra.
    + apply Qle_bool_false in Hle.
      assert (0 < inject_Z W)%Q as Hpos by lra.
      assert (Qeq_bool (inject_Z W) 0 = false) as Hnz.
      { destruct (Qeq_bool (inject_Z W) 0) eqn:Heq; [|done].
        apply Qeq_bool_eq in Heq. lra. }
      unfold Num.div, JS.of_Z. rewrite Hnz. cbn [JS.round JS.mul]. fold JS.of_Z.
      exists (Qfloor (maxWidth + (1 # 2))),
             (Qfloor (inject_Z H * (maxWidth / inject_Z W) + (1 # 2))).
      split; [done|]. split; [|split].
      * split; [apply round_lower; change (inject_Z 0) with 0%Q; lra
               |apply round_upper; lra].
      * apply scale_down; [done| |].
        -- apply Qle_shift_div_l; [done|]. lra.
        -- apply Qle_shift_div_r; [done|]. lra.
      * intros _. apply Qle_bool_true. apply Qfloor_le.
Qed.

(** X12: for a requested width and height that are non-negative integers,
    and a viewport that is not narrower than zero on a mobile device,
    [calculateOptimalDimensions] returns non-negative integers that are at
    most twice the requested ones, keeps the requested ones as
    [originalWidth] and [originalHeight], never enlarges under data saver,
    never divides by zero, and on a mobile device returns a width of at most
    nine tenths of the viewport width plus one half. *)
Theorem X12_dimensions_bounded (sys : ImageOptimizationSystem) (w h : Z) :
  0 <= w -> 0 <= h ->
  (deviceType (deviceCapabilities sys) = "mobile" ->
   JS.le (JS.of_Z 0) (vp_width (viewport (deviceCapabilities sys))) = true) ->
  let dimensions := calculateOptimalDimensions sys (JS.of_Z w) (JS.of_Z h) in
  exists w' h' : Z,
    dim_width dimensions = JS.of_Z w' /\ dim_height dimensions = JS.of_Z h'
    /\ originalWidth dimensions = JS.of_Z w /\ originalHeight dimensions = JS.of_Z h
    /\ 0 <= w' <= 2 * w /\ 0 <= h' <= 2 * h
    /\ (saveData (connection (deviceCapabilities sys)) = true -> w' <= w /\ h' <= h)
    /\ (deviceType (deviceCapabilities sys) = "mobile" ->
        JS.le (JS.of_Z w')
              (JS.add (JS.mul (vp_width (viewport (deviceCapabilities sys))) 0.9) 0.5)
        = true).
Proof.
  intros Hw Hh Hviewport dimensions. subst dimensions.
  unfold calculateOptimalDimensions.
  destruct (adjustForPixelRatio_bounds (deviceCapabilities sys) w h Hw Hh)
    as (W & H & -> & HW & HH & Hsave).
  destruct (constrainToViewport_bounds (deviceCapabilities sys) W H)
    as (W' & H' & -> & HW' & HH' & Hmobile); [lia|lia|done|].
  exists W', H'. cbn [dim_width dim_height originalWidth originalHeight].
  repeat split; try done; try lia.
  - destruct (Hsave H0) as [-> _]. lia.
  - destruct (Hsave H0) as [_ ->]. lia.
Qed.

Lemma X12_dimensions_bounded_witness :
  let capabilities :=
    mkDeviceCapabilities (mkViewport (JS.of_Z 390) (JS.of_Z 844)) (JS.of_Z 3) "mobile"
      (mkConnection "4g" (JS.of_Z 10) (JS.of_Z 100) false)
      (JS.of_Z 4) (JS.of_Z 4) false false in
  let sys := mkSystem None (mkFormatSupport true true true) capabilities in
  exists w' h' : Z,
    dim_width (calculateOptimalDimensions sys (JS.of_Z 300) (JS.of_Z 200)) = JS.of_Z w'
    /\ dim_height (calculateOptimalDimensions sys (JS.of_Z 300) (JS.of_Z 200)) = JS.of_Z h'
    /\ 0 <= w' <= 600 /\ 0 <= h' <= 400.
Proof.
  intros capabilities sys.
  destruct (X12_dimensions_bounded sys 300 200) as (w' & h' & Hw & Hh & _ & _ & Hwb & Hhb & _).
  - lia.
  - lia.
  - intros _. reflexivity.
  - exists w', h'. repeat split; try done; lia.
Defined.

(** ** Percentiles *)

Section Percentiles.

Implicit Types (values sorted : list Q) (p x y : Q).















End Percentiles.


(** ** Order of the percentiles and of the summary *)

Section Summaries.

Implicit Types (values sorted : list Q) (p q x y : Q).











End Summaries.


(** ** Summary of a metric *)





(** ** Forced variants and removal across sessions *)

Section ForcedVariants.

Implicit Types (s : Session) (experimentId variantId : string) (page : Page)
  (events : EventsItem) (env : Env).

Lemma sendBatchedData_keeps s (isBeacon : bool) :
  s_this (sendBatchedData s isBeacon).1 = s_this s
  /\ s_localStorage (sendBatchedData s isBeacon).1 = s_localStorage s
  /\ s_dataCollection (sendBatchedData s isBeacon).1 = s_dataCollection s
  /\ ab_test_events (sendBatchedData s isBeacon).1 = ab_test_events s.
Proof. unfold sendBatchedData. by destruct (dataQueue s). Qed.

Lemma enqueue_keeps s (eventData : EventData) :
  s_this (enqueue s eventData).1 = s_this s
  /\ s_localStorage (enqueue s eventData).1 = s_localStorage s
  /\ s_dataCollection (enqueue s eventData).1 = s_dataCollection s
  /\ ab_test_events (enqueue s eventData).1 = ab_test_events s.
Proof.
  unfold enqueue. destruct (_ <=? _); [|done].
  apply (sendBatchedData_keeps (with_queue s _)).
Qed.

Lemma trackEvent_keeps s (now : Z) (type : string) (data : list (string * Field)) :
  s_this (trackEvent s now type data).1 = s_this s
  /\ s_localStorage (trackEvent s now type data).1 = s_localStorage s.
Proof.
  unfold trackEvent.
  pose proof (enqueue_keeps s (newEvent s now type data)) as (Hthis & Hstorage & _).
  destruct (enqueue s (newEvent s now type data)) as [s' dispatch].
  cbn [fst] in *. by destruct (persistLocally (s_dataCollection s')).
Qed.

Lemma get_Own {A : Type} (entries : list (string * A)) (key : string) (a : A) :
  prop entries key = Some a -> get entries key = Own a.
Proof. unfold get. by intros ->. Qed.

(** What the next session finds for an experiment id. *)
Lemma newSession_lookup exps env page (ls : LocalStorage) events experimentId :
  let s := newSession exps env page ls events in
  experiments (s_this s) = exps
  /\ userAssignments (s_this s) !! experimentId =
       match default ∅ (ab_test_assignments ls) !! experimentId with
       | Some j => Some (fromJSON j)
       | None =>
           if decide (experimentId ∈ map fst exps)
           then Some (assignToVariant (s_this s) experimentId) else None
       end.
Proof.
  unfold newSession.
  pose proof (newFramework_lookup exps env ls experimentId) as Hlookup.
  destruct (newFramework exps env ls) as [this ls'].
  destruct Hlookup as (Hexps & _ & _ & _ & Hlookup). by cbn [s_this].
Qed.

(** X16: when the experiment and the variant are own entries of the
    configuration, [forceVariant] returns [true], the forced variant is what
    [getVariant] answers from then on, and, being written to
    [localStorage], it is also what [getVariant] answers in the next
    session, in place of the variant the hash of the user identifier
    selects. *)
Theorem X16_forced_variant_survives_reload s (now1 now2 : Z) experimentId variantId
    (experiment : Experiment) (config : VariantConfig) env page events :
  prop (experiments (s_this s)) experimentId = Some experiment ->
  prop (variants experiment) variantId = Some config ->
  variantId <> "" ->
  exists s' dispatch,
    forceVariant s now1 now2 experimentId variantId = Return (true, s', dispatch)
    /\ getVariant (s_this s') experimentId = VariantId variantId
    /\ getVariant
         (s_this (newSession (experiments (s_this s)) env page (s_localStorage s') events))
         experimentId
       = VariantId variantId.
Proof.
  intros Hexperiment Hvariant Hnonempty. unfold forceVariant.
  rewrite (get_Own _ _ _ Hexperiment), (get_Own _ _ _ Hvariant).
  set (forced := with_assignments s _).
  pose proof (trackEvent_keeps forced now2 "variantForced"
                [("experiment", FStr experimentId); ("variant", FStr variantId);
                 ("timestamp", FNum now1)]) as [Hthis Hstorage].
  destruct (trackEvent forced now2 _ _) as [s' dispatch]. cbn [fst] in Hthis, Hstorage.
  exists s', dispatch. split; [done|].
  assert (forall this, userAssignments this !! experimentId = Some (VariantId variantId) ->
                       getVariant this experimentId = VariantId variantId) as Hget.
  { intros this Hlookup. unfold getVariant. rewrite Hlookup.
    by destruct variantId. }
  split.
  - apply Hget. rewrite Hthis. unfold forced, with_assignments.
    cbn [s_this userAssignments]. by rewrite lookup_insert_eq.
  - apply Hget.
    destruct (newSession_lookup (experiments (s_this s)) env page (s_localStorage s')
                events experimentId) as [_ ->].
    rewrite Hstorage. unfold forced, with_assignments, saveUserAssignments.
    cbn [s_localStorage s_this userAssignments ab_test_assignments default from_option id].
    by rewrite lookup_omap, lookup_insert_eq.
Qed.

(** X17: [forceVariant] returns [false] and leaves the assignments, the
    storage and the event queue untouched when the experiment name, or the
    variant name of an own experiment, is neither an own entry nor a member
    inherited from [Object.prototype]; for an inherited name in place of the
    experiment it throws; and an inherited name in place of the variant is
    accepted and assigned. *)
Theorem X17_forceVariant_validation s (now1 now2 : Z) experimentId variantId :
  match prop (experiments (s_this s)) experimentId with
  | None =>
      if decide (experimentId ∈ Object_prototype)
      then forceVariant s now1 now2 experimentId variantId = Throw "TypeError"
      else forceVariant s now1 now2 experimentId variantId = Return (false, s, None)
  | Some experiment =>
      match prop (variants experiment) variantId with
      | None =>
          if decide (variantId ∈ Object_prototype)
          then exists s' dispatch,
                 forceVariant s now1 now2 experimentId variantId
                 = Return (true, s', dispatch)
                 /\ userAssignments (s_this s') !! experimentId
                    = Some (VariantId variantId)
          else forceVariant s now1 now2 experimentId variantId
               = Return (false, s, None)
      | Some _ =>
          exists s' dispatch,
            forceVariant s now1 now2 experimentId variantId
            = Return (true, s', dispatch)
            /\ userAssignments (s_this s') !! experimentId
               = Some (VariantId variantId)
      end
  end.
Proof.
  unfold forceVariant, get.
  destruct (prop (experiments (s_this s)) experimentId) as [experiment|];
    [|by case_decide].
  set (forced := with_assignments s _).
  pose proof (trackEvent_keeps forced now2 "variantForced"
                [("experiment", FStr experimentId); ("variant", FStr variantId);
                 ("timestamp", FNum now1)]) as [Hthis _].
  assert (userAssignments (s_this forced) !! experimentId = Some (VariantId variantId))
    as Hforced.
  { unfold forced, with_assignments. cbn [s_this userAssignments].
    by rewrite lookup_insert_eq. }
  destruct (prop (variants experiment) variantId) as [config|];
    [|case_decide; [|done]];
    destruct (trackEvent forced now2 _ _) as [s' dispatch]; cbn [fst] in Hthis;
    exists s', dispatch; (split; [done|by rewrite Hthis]).
Qed.

(** X18: [removeFromExperiment] removes the assignment for the rest of the
    session and leaves the other assignments alone, but the next session
    assigns the user to the experiment again, to the variant the hash
    selects. *)
Theorem X18_removal_lasts_one_session s (now1 now2 : Z) experimentId env page events :
  experimentId ∈ map fst (experiments (s_this s)) ->
  let s' := (removeFromExperiment s now1 now2 experimentId).1 in
  let next := newSession (experiments (s_this s)) env page (s_localStorage s') events in
  getVariant (s_this s') experimentId = Null
  /\ (forall other, other <> experimentId ->
      userAssignments (s_this s') !! other = userAssignments (s_this s) !! other)
  /\ userAssignments (s_this next) !! experimentId
     = Some (assignToVariant (s_this next) experimentId).
Proof.
  intros Hin s' next. subst next s'. unfold removeFromExperiment.
  set (removed := with_assignments s (delete experimentId (userAssignments (s_this s)))).
  destruct (trackEvent_keeps removed now2 "experimentRemoved"
              [("experiment", FStr experimentId); ("timestamp", FNum now1)])
    as [Hthis Hstorage].
  set (s' := (trackEvent removed now2 _ _).1) in *.
  split; [|split].
  - unfold getVariant. rewrite Hthis. unfold removed, with_assignments.
    cbn [s_this userAssignments]. by rewrite lookup_delete_eq.
  - intros other Hother. rewrite Hthis. unfold removed, with_assignments.
    cbn [s_this userAssignments]. by rewrite lookup_delete_ne.
  - destruct (newSession_lookup (experiments (s_this s)) env page (s_localStorage s')
                events experimentId) as [_ Hlookup].
    rewrite Hlookup, Hstorage.
    unfold removed, with_assignments, saveUserAssignments.
    cbn [s_localStorage s_this userAssignments ab_test_assignments default from_option id].
    rewrite lookup_omap, lookup_delete_eq. cbn. by case_decide.
Qed.

End ForcedVariants.
Lemma X16_forced_variant_survives_reload_witness :
  exists s' dispatch,
    forceVariant sampleSession 1700000000002 1700000000003
                 "format-preference" "webp-first"
    = Return (true, s', dispatch)
    /\ getVariant (s_this s') "format-preference" = VariantId "webp-first".
Proof.
  destruct (X16_forced_variant_survives_reload sampleSession 1700000000002 1700000000003
              "format-preference" "webp-first"
              (three "avif-first" "webp-first" "smart-detection" (3 # 10) (4 # 10) (3 # 10))
              (mkVariantConfig (JS.Fin (4 # 10))) sampleEnv samplePage Absent)
    as (s' & dispatch & Hforce & Hnow & _).
  - by vm_compute.
  - by vm_compute.
  - done.
  - by exists s', dispatch.
Defined.

Lemma X18_removal_lasts_one_session_witness :
  getVariant
    (s_this (removeFromExperiment sampleSession 1700000000002 1700000000003
                                  "cache-strategy").1)
    "cache-strategy"
  = Null.
Proof.
  apply (X18_removal_lasts_one_session sampleSession 1700000000002 1700000000003
           "cache-strategy" sampleEnv samplePage Absent).
  vm_compute. do 3 apply list_elem_of_further. apply list_elem_of_here.
Defined.

(** ** Locally stored events and the event queue *)

Section Events.

Implicit Types (s : Session) (network : Network) (events stored : list EventData).





End Events.

(** ** Where tracked events go *)

Section Conservation.

Implicit Types (s : Session) (network : Network) (events : list EventData)
  (w : Session * Network).

Lemma eventsOf_dispatch s network (isBeacon : bool) :
  eventsOf ((sendBatchedData s isBeacon).1,
            dispatchTo network (sendBatchedData s isBeacon).2)
  ≡ₚ eventsOf (s, network).
Proof.
  unfold sendBatchedData, eventsOf. destruct (dataQueue s) as [|e queue] eqn:Hqueue.
  - cbn [fst snd dispatchTo]. by rewrite Hqueue.
  - cbn [fst snd dispatchTo with_queue dataQueue]. rewrite Hqueue.
    destruct (isBeacon && hasSendBeacon (s_page s));
      cbn [pending taken]; rewrite concat_app; cbn [concat];
      generalize (concat (pending network)) (concat (taken network));
      intros held gone; solve_Permutation.
Qed.

Lemma eventsOf_enqueue s network (eventData : EventData) :
  eventsOf ((enqueue s eventData).1, dispatchTo network (enqueue s eventData).2)
  ≡ₚ (eventsOf (s, network) ++ [eventData])%list.
Proof.
  unfold enqueue. cbn [with_queue dataQueue s_dataCollection].
  set (s1 := with_queue s (dataQueue s ++ [eventData])%list).
  assert (eventsOf (s1, network) ≡ₚ (eventsOf (s, network) ++ [eventData])%list) as Hs1.
  { unfold eventsOf, s1. cbn [fst snd with_queue dataQueue].
    generalize (concat (pending network)) (concat (taken network)).
    intros held gone. solve_Permutation. }
  destruct (_ <=? _); [|done].
  etrans; [apply eventsOf_dispatch|done].
Qed.

Lemma eventsOf_track s network (now : Z) (type : string) (data : list (string * Field)) :
  eventsOf ((trackEvent s now type data).1,
            dispatchTo network (trackEvent s now type data).2)
  ≡ₚ (eventsOf (s, network) ++ [newEvent s now type data])%list.
Proof.
  rewrite <- (eventsOf_enqueue s network (newEvent s now type data)).
  unfold trackEvent. destruct (enqueue s (newEvent s now type data)) as [s' dispatch].
  by destruct (persistLocally (s_dataCollection s')).
Qed.

Lemma eventsOf_step w created w' :
  step w created w' -> eventsOf w' ≡ₚ (eventsOf w ++ created)%list.
Proof.
  destruct 1 as [s network now type data s' dispatch Htrack
                |s network isBeacon s' dispatch Hsend
                |s before events after gone
                |s before events after gone].
  - pose proof (eventsOf_track s network now type data) as Hevents.
    by rewrite Htrack in Hevents.
  - pose proof (eventsOf_dispatch s network isBeacon) as Hevents.
    rewrite Hsend in Hevents. by rewrite app_nil_r.
  - unfold eventsOf. cbn [fst snd pending taken].
    rewrite !concat_app. cbn [concat].
    generalize (concat before) (concat after) (concat gone) (dataQueue s).
    intros l1 l2 l3 l4. solve_Permutation.
  - unfold eventsOf, fetchRejected. cbn [fst snd pending taken with_queue dataQueue].
    rewrite !concat_app. cbn [concat].
    generalize (concat before) (concat after) (concat gone) (dataQueue s).
    intros l1 l2 l3 l4. solve_Permutation.
Qed.

(** X20: along any run of a session and its network (events tracked,
    queues sent by size, timer or page unload, fetches resolving or
    rejecting in any order) no event is lost or duplicated: the events in
    the queue, in pending fetches and taken by the network are, up to order,
    those held at the start and those created since.  An event so leaves the
    session only through [sendBeacon] or through a [fetch] that resolves,
    whatever the status of its response. *)
Theorem X20_events_are_conserved w created w' :
  run w created w' -> eventsOf w' ≡ₚ (eventsOf w ++ created)%list.
Proof.
  induction 1 as [w|w created w' created' w'' Hstep _ IH].
  - by rewrite app_nil_r.
  - rewrite IH, (eventsOf_step _ _ _ Hstep). by rewrite <- (assoc_L (++)).
Qed.

End Conservation.

Lemma X20_events_are_conserved_witness :
  let outcome := trackEvent sampleSession 1700000000005 "imageLoaded" [] in
  eventsOf (outcome.1, dispatchTo (mkNetwork [] []) outcome.2)
  ≡ₚ (eventsOf (sampleSession, mkNetwork [] [])
      ++ ([newEvent sampleSession 1700000000005 "imageLoaded" []] ++ []))%list.
Proof.
  intros outcome. apply X20_events_are_conserved.
  eapply run_step; [|apply run_done].
  apply step_track. subst outcome. apply surjective_pairing.
Defined.

(** ** Images that fail to load *)

Lemma generateDefaultPlaceholder_throws (base64 : list N -> string) :
  generateDefaultPlaceholder base64 = Throw "InvalidCharacterError".
Proof. reflexivity. Qed.

(** X21: [generateDefaultPlaceholder] hands a caption written in kanji and
    kana to [btoa], which throws on code units above 255; so, for every
    image, [handleImageError] either assigns the non-empty
    [data-fallback-src] to [src] and changes nothing else, or throws: it
    never returns with the default placeholder installed or the
    [image-error] class added. *)
Theorem X21_handleImageError_never_installs_placeholder (base64 : list N -> string)
    (img : HTMLImageElement) :
  generateDefaultPlaceholder base64 = Throw "InvalidCharacterError"
  /\ match handleImageError base64 img with
     | Return img' =>
         exists c s, img_dataset img !! "fallbackSrc" = Some (String c s)
                     /\ img' = mkImg (String c s) (img_dataset img) (img_classList img)
     | Throw error =>
         error = "InvalidCharacterError"
         /\ (img_dataset img !! "fallbackSrc" = None
             \/ img_dataset img !! "fallbackSrc" = Some "")
     end.
Proof.
  split; [apply generateDefaultPlaceholder_throws|].
  unfold handleImageError. rewrite generateDefaultPlaceholder_throws.
  destruct (img_dataset img !! "fallbackSrc") as [[|c s]|]; cbn [cbind]; eauto.
Qed.

(** ** What the fetch handlers write *)

Section Writes.

Variable URL_pathname : string -> option string.
Variable URL_hasParam : string -> string -> bool.
Variable URL_hostname : string -> string.
Variable URL_setHostname : string -> string -> string.
Variable URL_setSearch : string -> list (string * ParamValue) -> string.
Variable generateCacheKey : Request -> string.
Variable fetch : Request -> option Z -> FetchOutcome.

Implicit Types (caches : gmap string Cache) (request : Request) (response : Response).









End Writes.


(** ** The optimized image *)

Section OptimizeImageFacts.

Variable encodeURIComponent : string -> string.
Variable URLSearchParams_toString : list (string * string) -> string.
Variable Number_toString : JS.number -> string.
Variable imageProxy : string.
Variable placeholderQuality : JS.number.

Lemma round_of_Z (n : Z) : JS.round (JS.of_Z n) = JS.of_Z n.
Proof. unfold JS.round, JS.of_Z. by rewrite Qfloor_half. Qed.

(** X23: for a requested width and height that are non-negative integers
    (and a viewport not narrower than zero on a mobile device),
    [optimizeImage] returns a [srcset] of four entries whose second one is
    its own [src] followed by the optimal width: the image named by [src] is
    the 1x candidate.  The [sizes] attribute is built from the requested
    width, not from the optimal one, and the class name always ends in
    [image-optimized]. *)
Theorem X23_src_is_the_1x_candidate (sys : ImageOptimizationSystem) (src : string)
    (options : ImageOptions) (w h : Z) :
  o_width options = JS.of_Z w -> o_height options = JS.of_Z h ->
  0 <= w -> 0 <= h ->
  (deviceType (deviceCapabilities sys) = "mobile" ->
   JS.le (JS.of_Z 0) (vp_width (viewport (deviceCapabilities sys))) = true) ->
  let image :=
    optimizeImage encodeURIComponent URLSearchParams_toString Number_toString
      imageProxy placeholderQuality sys src options in
  exists (w' : Z) (e1 e3 e4 : string),
    0 <= w' <= 2 * w
    /\ oi_srcset image
       = e1 ++ ", " ++ (oi_src image ++ " " ++ Number_toString (JS.of_Z w') ++ "w")
         ++ ", " ++ e3 ++ ", " ++ e4
    /\ oi_sizes image
       = generateSizes Number_toString sys
           (mkDimensions (JS.of_Z w) (JS.of_Z h) (JS.of_Z w) (JS.of_Z h))
    /\ exists prefix, oi_className image = prefix ++ " image-optimized".
Proof.
  intros Hwidth Hheight Hw Hh Hviewport image. subst image. unfold optimizeImage.
  rewrite Hwidth, Hheight.
  destruct (calculateOptimalDimensions sys (JS.of_Z w) (JS.of_Z h))
    as [dw dh ow oh] eqn:Hdimensions.
  assert (exists w' h' : Z, dw = JS.of_Z w' /\ dh = JS.of_Z h' /\ 0 <= w' <= 2 * w
                            /\ ow = JS.of_Z w /\ oh = JS.of_Z h)
    as (w' & h' & -> & -> & Hw' & -> & ->).
  { revert Hdimensions. unfold calculateOptimalDimensions.
    destruct (adjustForPixelRatio_bounds (deviceCapabilities sys) w h Hw Hh)
      as (W & H & -> & HW & HH & _).
    destruct (constrainToViewport_bounds (deviceCapabilities sys) W H)
      as (W' & H' & -> & HW' & HH' & _); [lia|lia|done|].
    intros [= <- <- <- <-]. exists W', H'. repeat split; (done || lia). }
  cbn [oi_src oi_srcset oi_sizes oi_className dim_width dim_height].
  exists w'. eexists _, _, _. split; [done|]. split; [|split; [done|by eexists]].
  unfold generateSrcSet, srcSetCandidates, breakpoints.
  cbn [map join srcSetCandidate fst snd dim_width dim_height].
  rewrite !round_mul_one, !round_of_Z. reflexivity.
Qed.

End OptimizeImageFacts.

Lemma X23_src_is_the_1x_candidate_witness :
  let sys := systemWith None (mkFormatSupport true true true) "4g" false in
  let image :=
    optimizeImage (fun s => s) (fun _ => "w=300") (fun _ => "300") "https://images.example.com"
      (JS.of_Z 10) sys "/a.jpg"
      (mkImageOptions (JS.of_Z 300) (JS.of_Z 200) None None None None None None) in
  exists prefix, oi_className image = prefix ++ " image-optimized".
Proof.
  intros sys image.
  destruct (X23_src_is_the_1x_candidate (fun s => s) (fun _ => "w=300") (fun _ => "300")
              "https://images.example.com" (JS.of_Z 10) sys "/a.jpg"
              (mkImageOptions (JS.of_Z 300) (JS.of_Z 200) None None None None None None)
              300 200)
    as (w' & e1 & e3 & e4 & _ & _ & _ & Hclass); try done.
Defined.

(** ** Image formats in the collected metrics *)

Section ImageFormatFacts.

Variable URL_pathname : string -> option string.
Variable URL_searchParam : string -> string -> option string.

(** X24: the two copies of [getImageFormat] never throw and give the same
    answer for every source, except that only the one of
    [PerformanceMonitor] knows gif and svg: where they differ, its answer is
    'gif' or 'svg'.  Neither ever derives 'jpg' from a path: a path with
    .jpg or .jpeg gives 'jpeg'. *)
Theorem X24_getImageFormat_copies_agree (src : string) :
  (monitor_getImageFormat URL_pathname URL_searchParam src
   = abTesting_getImageFormat URL_pathname URL_searchParam src
   \/ monitor_getImageFormat URL_pathname URL_searchParam src = "gif"
   \/ monitor_getImageFormat URL_pathname URL_searchParam src = "svg")
  /\ (monitor_getImageFormat URL_pathname URL_searchParam src = "jpg" ->
      formatParameter URL_searchParam src = "jpg")
  /\ (abTesting_getImageFormat URL_pathname URL_searchParam src = "jpg" ->
      formatParameter URL_searchParam src = "jpg").
Proof.
  unfold monitor_getImageFormat, abTesting_getImageFormat.
  destruct (URL_pathname src) as [pathname|]; [|by split; [left|split]].
  destruct (includes _ ".avif"); [by split; [left|split]|].
  destruct (includes _ ".webp"); [by split; [left|split]|].
  destruct (includes _ ".jpg" || includes _ ".jpeg"); [by split; [left|split]|].
  destruct (includes _ ".png"); [by split; [left|split]|].
  destruct (includes _ ".gif"); [by split; [right; left|split]|].
  destruct (includes _ ".svg"); [by split; [right; right|split]|].
  by split; [left|split].
Qed.

End ImageFormatFacts.

Lemma X24_getImageFormat_copies_agree_witness :
  monitor_getImageFormat Some (fun _ _ => None) "/img/photo.gif"
  = abTesting_getImageFormat Some (fun _ _ => None) "/img/photo.gif"
  \/ monitor_getImageFormat Some (fun _ _ => None) "/img/photo.gif" = "gif"
  \/ monitor_getImageFormat Some (fun _ _ => None) "/img/photo.gif" = "svg".
Proof.
  exact (proj1 (X24_getImageFormat_copies_agree Some (fun _ _ => None) "/img/photo.gif")).
Defined.

Section FormatDistributionFacts.

Variable inheritedText : string -> string.

Implicit Types (imageLoads : list (option string)) (format : string)
  (distribution : gmap string Count).

(** The loop of [getFormatDistribution] from any distribution that holds
    positive counts only. *)
Lemma distribution_fold imageLoads distribution format :
  Forall (fun load => JS.str_or_default load "unknown" ∉ Object_prototype) imageLoads ->
  (forall name count, distribution !! name = Some count ->
                      exists n, count = CNumber n /\ 0 < n) ->
  foldl (fun distribution load =>
           let format := JS.str_or_default load "unknown" in
           if String.eqb format "__proto__" then distribution
           else <[format := incremented inheritedText distribution format]> distribution)
        distribution imageLoads !! format
  = match distribution !! format with
    | Some (CNumber n) => Some (CNumber (n + occurrences imageLoads format))
    | Some other => Some other
    | None => if occurrences imageLoads format =? 0 then None
              else Some (CNumber (occurrences imageLoads format))
    end.
Proof.
  revert distribution.
  induction imageLoads as [|load rest IH]; intros distribution Hplain Hcounts.
  - cbn [foldl]. unfold occurrences. cbn.
    destruct (distribution !! format) as [[n|s]|]; [|done..].
    by rewrite Z.add_0_r.
  - apply Forall_cons in Hplain as [Hload Hrest]. cbn [foldl].
    set (name := JS.str_or_default load "unknown") in *.
    assert (String.eqb name "__proto__" = false) as ->.
    { destruct (String.eqb_spec name "__proto__") as [Heq|]; [|done].
      exfalso. apply Hload. rewrite Heq. unfold Object_prototype.
      do 10 apply list_elem_of_further. apply list_elem_of_here. }
    assert (exists n, incremented inheritedText distribution name = CNumber n /\ 0 < n
                      /\ n = match distribution !! name with
                             | Some (CNumber m) => m + 1
                             | _ => 1
                             end) as (n & Hn & Hpos & Hvalue).
    { unfold incremented. destruct (distribution !! name) as [count|] eqn:Hname.
      - destruct (Hcounts _ _ Hname) as (m & -> & Hm).
        destruct (Z.eqb_spec m 0); [lia|]. exists (m + 1). repeat split; lia.
      - case_decide; [done|]. by exists 1. }
    rewrite IH; [|done|].
    + rewrite Hn.
      assert (occurrences (load :: rest) format
              = (if decide (name = format) then 1 else 0) + occurrences rest format)
        as ->.
      { unfold occurrences. fold name.
        destruct (decide (name = format)) as [Heq|Hne].
        - rewrite filter_cons_True by done. cbn [length]. lia.
        - by rewrite filter_cons_False by done. }
      assert (0 <= occurrences rest format) as Hnonneg by (unfold occurrences; lia).
      destruct (decide (name = format)) as [->|Hne].
      * rewrite lookup_insert_eq. subst n.
        destruct (distribution !! format) as [count|] eqn:Hformat.
        -- destruct (Hcounts _ _ Hformat) as (m & -> & Hm). do 2 f_equal. lia.
        -- destruct (Z.eqb_spec (1 + occurrences rest format) 0); [lia|]. done.
      * rewrite lookup_insert_ne by done.
        destruct (distribution !! format) as [[m|s]|]; done.
    + intros other count. destruct (decide (name = other)) as [->|Hne].
      * rewrite lookup_insert_eq, Hn. intros [= <-]. by exists n.
      * rewrite lookup_insert_ne by done. apply Hcounts.
Qed.

(** X25: when no load carries a format that names a member of
    [Object.prototype], [getFormatDistribution] holds for every format
    exactly the number of loads of that format, a missing or empty format
    counting as 'unknown', and no entry for a format that does not occur.
    A first load whose format is such a name, 'constructor' say (which
    [getImageFormat] returns for an URL with f=constructor), yields a text
    instead of a count. *)
Theorem X25_format_distribution_counts imageLoads format :
  (Forall (fun load => JS.str_or_default load "unknown" ∉ Object_prototype) imageLoads ->
   getFormatDistribution inheritedText imageLoads !! format
   = if occurrences imageLoads format =? 0 then None
     else Some (CNumber (occurrences imageLoads format)))
  /\ getFormatDistribution inheritedText [Some "constructor"] !! "constructor"
     = Some (CString (inheritedText "constructor" ++ "1")).
Proof.
  split; [|done]. intros Hplain. unfold getFormatDistribution.
  rewrite (distribution_fold imageLoads ∅ format Hplain).
  - by rewrite lookup_empty.
  - intros name count Hname. by rewrite lookup_empty in Hname.
Qed.

End FormatDistributionFacts.

Lemma X25_format_distribution_counts_witness :
  getFormatDistribution (fun _ => "") [Some "webp"; None; Some "webp"; Some ""] !! "webp"
  = Some (CNumber 2).
Proof.
  apply (proj1 (X25_format_distribution_counts (fun _ => "")
                  [Some "webp"; None; Some "webp"; Some ""] "webp")).
  repeat (apply Forall_cons; split; [apply (bool_decide_unpack _); by vm_compute|]).
  apply Forall_nil_2.
Defined.
